(** * META_ANALYSIS: a shallow embedding of [scripts/meta_analysis.py]

    The development follows the source file top-down: the chromosome table,
    the three combiners, the allele helpers, the [MetaDat] record with
    [equalize] and [z_score], and the [Study] stream with [get_next_data],
    [get_match] and [put_back].

    Conventions.
    - A Python [float] is an IEEE binary64 number: a primitive [float].
      A Python [int] is a [Z].  A value that may be [None] is an [option].
    - A call that may raise returns a [result]; the exception is named.
    - Objects are mutable in the source.  A method that assigns to fields of
      [self] returns the new value of [self] next to its result. *)

From Stdlib Require Import ZArith List String Ascii Bool Lia Permutation.
From Stdlib Require Import DecimalString.
From Stdlib Require Import PrimFloat SpecFloat FloatOps.
Import ListNotations.

Set Implicit Arguments.

(** ** Exceptions and the error monad *)

Inductive exn : Set :=
| KeyError | IndexError | TypeError | ZeroDivisionError | ValueError
| OverflowError.

(** [OutOfFuel] is not a Python outcome: it is what a fuelled loop of the
    embedding answers when its fuel is spent.  [get_match_terminates] shows
    that the one fuelled loop of the file never answers it. *)
Inductive result (A : Type) : Type :=
| Ok (a : A)
| Raise (e : exn)
| OutOfFuel.

Arguments Ok {A} a.
Arguments Raise {A} e.
Arguments OutOfFuel {A}.

Definition bind {A B} (c : result A) (k : A -> result B) : result B :=
  match c with
  | Ok a => k a
  | Raise e => Raise e
  | OutOfFuel => OutOfFuel
  end.

Declare Scope py_scope.
Delimit Scope py_scope with py.
Notation "x <- c ;; k" := (bind c (fun x => k))
  (at level 61, c at next level, right associativity) : py_scope.
Notation "' pat <- c ;; k" := (bind c (fun x => match x with pat => k end))
  (at level 61, pat pattern, c at next level, right associativity) : py_scope.
Open Scope py_scope.

(** ** Numbers *)

(** [x / y] on two Python floats: raises on a zero divisor. *)
Definition float_truediv (x y : float) : result float :=
  if PrimFloat.eqb y 0 then Raise ZeroDivisionError else Ok (x / y)%float.

(** [a / b] on two Python ints is the correctly rounded quotient. *)
Definition Z2SF (z : Z) : spec_float :=
  match z with
  | Z0 => S754_zero false
  | Zpos p => S754_finite false p 0
  | Zneg p => S754_finite true p 0
  end.

Definition int_truediv (a b : Z) : result float :=
  if (b =? 0)%Z then Raise ZeroDivisionError
  else match SFdiv prec emax (Z2SF a) (Z2SF b) with
       | S754_infinity _ => Raise OverflowError
       | q => Ok (SF2Prim q)
       end.

(** [math.sqrt]: a domain error on a negative argument. *)
Definition math_sqrt (x : float) : result float :=
  if PrimFloat.ltb x 0 then Raise ValueError else Ok (PrimFloat.sqrt x).

(** [numpy.sign] on a float; on [None] the object loop compares [None] with
    [0] and raises. *)
Definition numpy_sign (x : option float) : result float :=
  match x with
  | None => Raise TypeError
  | Some x =>
      Ok (if PrimFloat.ltb 0 x then 1%float
          else if PrimFloat.ltb x 0 then (-1)%float
          else if PrimFloat.eqb x 0 then 0%float
          else x)
  end.

(** ** The chromosome table [chrord] *)

Definition str (n : Z) : string :=
  NilEmpty.string_of_uint (N.to_uint (Z.to_N n)).

Definition range (lo hi : Z) : list Z :=
  map (fun k => (lo + Z.of_nat k)%Z) (seq 0 (Z.to_nat (hi - lo))).

Definition chrord : list (string * Z) :=
  map (fun c => (("chr" ++ str c)%string, c)) (range 1 23)
  ++ [("chrX"%string, 23%Z); ("chrY"%string, 24%Z); ("chrMT"%string, 25%Z)]
  ++ map (fun c => (str c, c)) (range 1 23).

(** [chrord[key]], with [None] for [key not in chrord]. *)
Fixpoint dict_get (d : list (string * Z)) (key : string) : option Z :=
  match d with
  | [] => None
  | (k, v) :: d' => if String.eqb k key then Some v else dict_get d' key
  end.

(** ** Allele helpers *)

Definition flip (a : ascii) : option ascii :=
  if Ascii.eqb a "A" then Some "T"%char
  else if Ascii.eqb a "C" then Some "G"%char
  else if Ascii.eqb a "T" then Some "A"%char
  else if Ascii.eqb a "G" then Some "C"%char
  else None.

Fixpoint flip_strand (allele : string) : result string :=
  match allele with
  | EmptyString => Ok EmptyString
  | String a rest =>
      match flip a with
      | None => Raise KeyError
      | Some b => r <- flip_strand rest ;; Ok (String b r)
      end
  end.

Definition is_symmetric (a1 a2 : string) : bool :=
  (String.eqb a1 "A" && String.eqb a2 "T")
  || (String.eqb a1 "T" && String.eqb a2 "A")
  || (String.eqb a1 "C" && String.eqb a2 "G")
  || (String.eqb a1 "G" && String.eqb a2 "C").

(** ** [MetaDat] *)

Record MetaDat : Type := mkMetaDat {
  chr : Z;
  pos : Z;
  ref : string;
  alt : string;
  beta : option float;
  pval : option float;
  z_scr : option float;
  se : option float;
  extra_cols : list string
}.

(** The three assignments of the swapped branches of [equalize]:
    [self.beta = -1 * self.beta if self.beta is not None else None], then
    [t = self.alt; self.alt = self.ref; self.ref = t]. *)
Definition swap_alleles (self : MetaDat) : MetaDat :=
  {| chr := chr self;
     pos := pos self;
     ref := alt self;
     alt := ref self;
     beta := match beta self with
             | Some b => Some ((-1) * b)%float
             | None => None
             end;
     pval := pval self;
     z_scr := z_scr self;
     se := se self;
     extra_cols := extra_cols self |}.

(** [equalize] answers [True], [False] or, where the source falls off the
    end of the function, [None].  It only reads [other]; the record returned
    is [self] after the call. *)
Definition equalize (self other : MetaDat) : result (option bool * MetaDat) :=
  if (chr self =? chr other)%Z && (pos self =? pos other)%Z then
    flip_ref <- flip_strand (ref other) ;;
    flip_alt <- flip_strand (alt other) ;;
    if is_symmetric (ref other) (alt other) then
      if String.eqb (ref self) (ref other) && String.eqb (alt self) (alt other)
      then Ok (Some true, self)
      else if String.eqb (ref self) (alt other)
              && String.eqb (alt self) (ref other)
      then Ok (Some true, swap_alleles self)
      else Ok (None, self)
    else if (String.eqb (ref self) (ref other) || String.eqb (ref self) flip_ref)
            && (String.eqb (alt self) (alt other) || String.eqb (alt self) flip_alt)
    then Ok (Some true, self)
    else if (String.eqb (ref self) (alt other) || String.eqb (ref self) flip_alt)
            && (String.eqb (alt self) (ref other) || String.eqb (alt self) flip_alt)
    then Ok (Some true, swap_alleles self)
    else Ok (Some false, self)
  else Ok (None, self).

(** Truth value of what [equalize] returns, as [if v.equalize(dat):] takes
    it. *)
Definition truthy (r : option bool) : bool :=
  match r with
  | Some true => true
  | _ => false
  end.

(** ** [Study] *)

(** One line of a study file after [l.rstrip().split("\t")] and the field
    conversions of [get_next_data]: the contig name as written, the
    position after [int(pos)], the stripped alleles, and the effect,
    p-value and standard error as the source hands them to the [MetaDat]
    constructor ([None] where the conversion to [float] failed or the
    column is not configured).  A line of a known contig that makes the
    conversions themselves raise (too few fields, a position that is not
    an integer, an odds ratio without a logarithm) ends the program in the
    source; a [Row] is a line that does not, and what is proved of the
    reader is proved of the calls that return. *)
Record Row : Type := mkRow {
  row_chr : string;
  row_pos : Z;
  row_ref : string;
  row_alt : string;
  row_eff : option float;
  row_pval : option float;
  row_se : option float;
  row_extra : list string
}.

(** [MetaDat(chr, pos, ref, alt, eff, pval, se, extracols)] with
    [chr = chrord[chr]]; the constructor sets [z_scr] to [None]. *)
Definition MetaDat_of_row (c : Z) (l : Row) : MetaDat :=
  {| chr := c;
     pos := row_pos l;
     ref := row_ref l;
     alt := row_alt l;
     beta := row_eff l;
     pval := row_pval l;
     z_scr := None;
     se := row_se l;
     extra_cols := row_extra l |}.

(** The fields of a [Study] the modelled methods use: the configuration
    entries [name], [n_cases], [n_controls] and [se], the deque [future],
    the unread lines of [conf["fpoint"]], and the cache [eff_size]. *)
Record Study : Type := mkStudy {
  conf_name : string;
  conf_n_cases : Z;
  conf_n_controls : Z;
  conf_se : bool;
  future : list MetaDat;
  fpoint : list Row;
  eff_size : option float
}.

Definition with_stream (s : Study) (fut : list MetaDat) (rows : list Row)
  : Study :=
  {| conf_name := conf_name s;
     conf_n_cases := conf_n_cases s;
     conf_n_controls := conf_n_controls s;
     conf_se := conf_se s;
     future := fut;
     fpoint := rows;
     eff_size := eff_size s |}.

Definition n_cases (self : Study) : Z := conf_n_cases self.

(** The source reads [self.conf["n_cases"]] here too. *)
Definition n_controls (self : Study) : Z := conf_n_cases self.

(** [effective_size] fills the cache [eff_size] on its first call. *)
Definition effective_size (self : Study) : result (float * Study) :=
  match eff_size self with
  | Some e => Ok (e, self)
  | None =>
      e <- int_truediv (4 * n_cases self * n_controls self)
                       (n_cases self + n_controls self) ;;
      Ok (e, {| conf_name := conf_name self;
                conf_n_cases := conf_n_cases self;
                conf_n_controls := conf_n_controls self;
                conf_se := conf_se self;
                future := future self;
                fpoint := fpoint self;
                eff_size := Some e |})
  end.

Definition has_std_err (self : Study) : bool := conf_se self.

(** [a.chr == b.chr and a.pos == b.pos] *)
Definition same_site (a b : MetaDat) : bool :=
  (chr a =? chr b)%Z && (pos a =? pos b)%Z.

Definition enumerate {A} (l : list A) : list (nat * A) :=
  combine (seq 0 (List.length l)) l.

(** [del l[i]] *)
Definition del_at {A} (i : nat) (l : list A) : list A :=
  firstn i l ++ skipn (S i) l.

(** The comprehension [f] of the buffered branch of [get_next_data]: the
    indexed records [(i, v)] of [future] with [i == 0] or [v] at the site of
    [future[i-1]]. *)
Definition buffered (fut : list MetaDat) : list (nat * MetaDat) :=
  filter (fun iv : nat * MetaDat =>
            let (i, v) := iv in
            (i =? 0)%nat
            || match nth_error fut (i - 1) with
               | Some p => same_site v p
               | None => false
               end)
         (enumerate fut).

(** [for i, v in reversed(f): del self.future[i]] *)
Definition del_all (f : list (nat * MetaDat)) (fut : list MetaDat)
  : list MetaDat :=
  fold_left (fun q iv => del_at (fst iv) q) (rev f) fut.

(** The reading loop of [get_next_data], by recursion on the unread lines.
    A line on a contig outside [chrord] is passed over by the inner
    [while]; the end of the file returns [None] whatever [vars] holds. *)
Fixpoint read_rows (just_one : bool) (vars fut : list MetaDat)
         (rows : list Row) : option (list MetaDat) * (list MetaDat * list Row) :=
  match rows with
  | [] => (None, (fut, []))
  | l :: rows' =>
      match dict_get chrord (row_chr l) with
      | None => read_rows just_one vars fut rows'
      | Some c =>
          let v := MetaDat_of_row c l in
          if match vars with
             | [] => true
             | v0 :: _ => same_site v0 v
             end
          then
            if just_one then (Some (vars ++ [v]), (fut, rows'))
            else read_rows just_one (vars ++ [v]) fut rows'
          else (Some vars, (fut ++ [v], rows'))
      end
  end.

Definition get_next_data (just_one : bool) (self : Study)
  : option (list MetaDat) * Study :=
  match future self with
  | _ :: _ =>
      let f := buffered (future self) in
      (Some (map snd f),
       with_stream self (del_all f (future self)) (fpoint self))
  | [] =>
      let '(vars, (fut, rows)) := read_rows just_one [] (future self) (fpoint self) in
      (vars, with_stream self fut rows)
  end.

(** [for m in metadat: self.future.appendleft(m)] *)
Definition put_back (metadat : list MetaDat) (self : Study) : Study :=
  with_stream self
    (fold_left (fun q m => m :: q) metadat (future self)) (fpoint self).

(** [a] sorts strictly before [dat]: the test of the [while] of
    [get_match]. *)
Definition before (a dat : MetaDat) : bool :=
  (chr a <? chr dat)%Z || ((chr a =? chr dat)%Z && (pos a <? pos dat)%Z).

(** [a.chr > dat.chr or a.pos > dat.pos] *)
Definition beyond (a dat : MetaDat) : bool :=
  (chr dat <? chr a)%Z || (pos dat <? pos a)%Z.

(** The [while] of [get_match]: batches whose first record sorts before
    [dat] are dropped and the next batch is pulled. *)
Fixpoint skip_before (fuel : nat) (dat : MetaDat)
         (otherdats : option (list MetaDat)) (self : Study)
  : result (option (list MetaDat) * Study) :=
  match otherdats with
  | None => Ok (None, self)
  | Some [] => Raise IndexError
  | Some (o :: rest) =>
      if before o dat then
        match fuel with
        | O => OutOfFuel
        | S fuel' =>
            let (otherdats', self') := get_next_data false self in
            skip_before fuel' dat otherdats' self'
        end
      else Ok (Some (o :: rest), self)
  end.

(** The [for] of [get_match] over [otherdats = seen ++ todo]: the first
    record that equalizes with [dat] is returned with the list it was
    deleted from; [None] when the scan ends.  The records of the list are
    the objects [equalize] was called on. *)
Fixpoint scan (dat : MetaDat) (seen todo : list MetaDat)
  : result (option MetaDat * list MetaDat) :=
  match todo with
  | [] => Ok (None, seen)
  | v :: todo' =>
      '(r, v') <- equalize v dat ;;
      if truthy r then Ok (Some v', seen ++ todo')
      else scan dat (seen ++ [v']) todo'
  end.

(** A call to [get_next_data] takes a record out of [future] or a line out
    of the file, or returns [None], which ends the [while]: one more than
    their number bounds its rounds. *)
Definition get_match_fuel (self : Study) : nat :=
  S (List.length (future self) + List.length (fpoint self)).

Definition get_match (dat : MetaDat) (self : Study)
  : result (option MetaDat * Study) :=
  let (otherdats, self1) := get_next_data false self in
  match otherdats with
  | None | Some [] => Ok (None, self1)
  | Some _ =>
      '(otherdats, self2) <-
         skip_before (get_match_fuel self1) dat otherdats self1 ;;
      match otherdats with
      | None => Ok (None, self2)
      | Some [] => Raise IndexError
      | Some (o :: rest) =>
          if beyond o dat then Ok (None, put_back (o :: rest) self2)
          else
            '(found, remaining) <- scan dat [] (o :: rest) ;;
            Ok (found, put_back remaining self2)
      end
  end.

(** The calls [oth.get_match(d)] that [run] makes on one study, one for
    each anchor record [d] in turn. *)
Fixpoint get_matches (targets : list MetaDat) (self : Study)
  : result (list (option MetaDat) * Study) :=
  match targets with
  | [] => Ok ([], self)
  | dat :: targets' =>
      '(found, self1) <- get_match dat self ;;
      '(founds, self2) <- get_matches targets' self1 ;;
      Ok (found :: founds, self2)
  end.

(** ** [z_score] and the combiners *)

(** [sum(l)]: the additions run left to right from [0]. *)
Definition py_sum (l : list float) : float :=
  fold_left PrimFloat.add l 0%float.

Section Combiners.

(** SciPy is outside the repository: [norm_sf] stands for
    [scipy.stats.norm.sf] and [chi2_isf] for [chi2.isf(_, df=1)], both on
    a float argument. *)
Variable norm_sf : float -> float.
Variable chi2_isf : float -> float.

(** [z_score] fills [z_scr] on its first call.  [chi2.isf] compares its
    argument with [0]: a [None] p-value raises. *)
Definition z_score (self : MetaDat) : result (float * MetaDat) :=
  match z_scr self with
  | Some z => Ok (z, self)
  | None =>
      match pval self with
      | None => Raise TypeError
      | Some p =>
          z <- math_sqrt (chi2_isf p) ;;
          Ok (z, {| chr := chr self;
                    pos := pos self;
                    ref := ref self;
                    alt := alt self;
                    beta := beta self;
                    pval := pval self;
                    z_scr := Some z;
                    se := se self;
                    extra_cols := extra_cols self |})
      end
  end.

(** [abs(sum(effs)) / math.sqrt(tot)] where the terms of [effs] are numpy
    floats, as in [n_meta] and [variance_weight_meta]: with no term the
    sum is the int [0] and the division is Python's, which raises on a
    zero divisor; with a term the division is numpy's, which does not. *)
Definition weighted_z (effs : list float) (tot : float) : result float :=
  root <- math_sqrt tot ;;
  match effs with
  | [] => float_truediv (abs (py_sum effs)) root
  | _ :: _ => Ok (abs (py_sum effs) / root)%float
  end.

(** The loops of the combiners carry the lists and totals the source
    accumulates.  The values cached in the [Study] and [MetaDat] objects
    on the way do not change what is returned and are not carried. *)
Fixpoint n_meta_loop (studies : list (Study * MetaDat))
         (effs_size : list float) (tot_size : float)
  : result (list float * float) :=
  match studies with
  | [] => Ok (effs_size, tot_size)
  | (study, dat) :: studies' =>
      '(size, _) <- effective_size study ;;
      w <- math_sqrt size ;;
      sgn <- numpy_sign (beta dat) ;;
      '(z, _) <- z_score dat ;;
      n_meta_loop studies' (effs_size ++ [(w * sgn * z)%float])
                  (tot_size + size)%float
  end.

Definition n_meta (studies : list (Study * MetaDat)) : result (option float) :=
  '(effs_size, tot_size) <- n_meta_loop studies [] 0%float ;;
  z <- weighted_z effs_size tot_size ;;
  Ok (Some (norm_sf z)).

(** The [for] of [inv_var_meta]; on [dat.se is None or dat.se == 0] the
    [break] ends it with what has been accumulated (the message printed to
    [stderr] is not modelled). *)
Fixpoint inv_var_loop (studies : list (Study * MetaDat))
         (effs_inv_var : list float) (tot_se : float)
  : result (list float * float) :=
  match studies with
  | [] => Ok (effs_inv_var, tot_se)
  | (study, dat) :: studies' =>
      match se dat with
      | None => Ok (effs_inv_var, tot_se)
      | Some s =>
          if PrimFloat.eqb s 0 then Ok (effs_inv_var, tot_se)
          else
            let var := (s * s)%float in
            inv <- float_truediv 1 var ;;
            match beta dat with
            | None => Raise TypeError
            | Some b =>
                inv_var_loop studies' (effs_inv_var ++ [(var * b)%float])
                             (tot_se + inv)%float
            end
      end
  end.

Definition inv_var_meta (studies : list (Study * MetaDat))
  : result (option float) :=
  '(effs_inv_var, tot_se) <- inv_var_loop studies [] 0%float ;;
  if (List.length effs_inv_var =? List.length studies)%nat then
    root <- math_sqrt tot_se ;;
    z <- float_truediv (py_sum effs_inv_var) root ;;
    Ok (Some (norm_sf (abs z)))
  else Ok None.

Fixpoint variance_weight_loop (studies : list (Study * MetaDat))
         (effs_se : list float) (tot_se : float)
  : result (list float * float) :=
  match studies with
  | [] => Ok (effs_se, tot_se)
  | (study, dat) :: studies' =>
      match se dat with
      | None => Ok (effs_se, tot_se)
      | Some s =>
          if PrimFloat.eqb s 0 then Ok (effs_se, tot_se)
          else
            w <- float_truediv 1 s ;;
            sgn <- numpy_sign (beta dat) ;;
            '(z, _) <- z_score dat ;;
            inv <- float_truediv 1 (s * s)%float ;;
            variance_weight_loop studies' (effs_se ++ [(w * sgn * z)%float])
                                 (tot_se + inv)%float
      end
  end.

Definition variance_weight_meta (studies : list (Study * MetaDat))
  : result (option float) :=
  '(effs_se, tot_se) <- variance_weight_loop studies [] 0%float ;;
  if (List.length effs_se =? List.length studies)%nat then
    z <- weighted_z effs_se tot_se ;;
    Ok (Some (norm_sf z))
  else Ok None.

(** [SUPPORTED_METHODS] and [do_meta] *)
Inductive method : Set := method_n | method_inv_var | method_variance.

Definition SUPPORTED_METHODS (m : method)
  : list (Study * MetaDat) -> result (option float) :=
  match m with
  | method_n => n_meta
  | method_inv_var => inv_var_meta
  | method_variance => variance_weight_meta
  end.

Fixpoint do_meta (study_list : list (Study * MetaDat)) (methods : list method)
  : result (list (option float)) :=
  match methods with
  | [] => Ok []
  | m :: methods' =>
      p <- SUPPORTED_METHODS m study_list ;;
      ps <- do_meta study_list methods' ;;
      Ok (p :: ps)
  end.

End Combiners.

(** ** Vocabulary of the statements *)

(** [self.ref == other.ref and self.alt == other.alt], the first test of the
    palindromic branch of [equalize]. *)
Definition exact_order (self other : MetaDat) : bool :=
  String.eqb (ref self) (ref other) && String.eqb (alt self) (alt other).

(** [self.ref == other.alt and self.alt == other.ref], its second test. *)
Definition swapped_order (self other : MetaDat) : bool :=
  String.eqb (ref self) (alt other) && String.eqb (alt self) (ref other).

(** The records the reading loop makes of the unread lines, in order. *)
Fixpoint records (rows : list Row) : list MetaDat :=
  match rows with
  | [] => []
  | l :: rows' =>
      match dict_get chrord (row_chr l) with
      | None => records rows'
      | Some c => MetaDat_of_row c l :: records rows'
      end
  end.

(** Everything a study still holds: the deque, then the unread records. *)
Definition pending (self : Study) : list MetaDat :=
  future self ++ records (fpoint self).

(** What [get_match] took out of the stream for the caller: the record [v]
    that equalized with [dat], returned as [m] after normalization. *)
Definition taken_by (dat : MetaDat) (found : option MetaDat)
           (taken : list MetaDat) : Prop :=
  match found with
  | None => taken = []
  | Some m => exists v, taken = [v] /\ equalize v dat = Ok (Some true, m)
  end.

(** A batch the [while] of [get_match] drops: its first record sorts
    strictly before the target. *)
Definition dropped_batch (dat : MetaDat) (batch : list MetaDat) : Prop :=
  exists o rest, batch = o :: rest /\ before o dat = true.

(** The records a sequence of calls took out, call by call. *)
Inductive taken_by_all
  : list MetaDat -> list (option MetaDat) -> list MetaDat -> Prop :=
| taken_nil : taken_by_all [] [] []
| taken_cons dat targets found founds taken takens :
    taken_by dat found taken ->
    taken_by_all targets founds takens ->
    taken_by_all (dat :: targets) (found :: founds) (taken ++ takens).

(** The targets of a sequence of calls do not go back in (chr, pos)
    order. *)
Fixpoint nondecreasing (targets : list MetaDat) : Prop :=
  match targets with
  | [] => True
  | dat :: targets' =>
      match targets' with
      | [] => True
      | next :: _ => before next dat = false
      end /\ nondecreasing targets'
  end.

(** Conservation as the specification words it: after the calls, every
    record the study held has been returned as a match, once, or is still
    held. *)
Definition matched_or_kept (targets : list MetaDat) (self : Study) : Prop :=
  nondecreasing targets ->
  forall founds self',
    get_matches targets self = Ok (founds, self') ->
    exists taken,
      taken_by_all targets founds taken
      /\ Permutation (pending self) (taken ++ pending self').

(** *** Sample data *)

Definition variant (c p : Z) (r a : string) (b : option float) : MetaDat :=
  {| chr := c; pos := p; ref := r; alt := a; beta := b;
     pval := Some 0.25%float; z_scr := None; se := Some 2%float;
     extra_cols := [] |}.

Definition line (c : string) (p : Z) (r a : string) (b : option float) : Row :=
  {| row_chr := c; row_pos := p; row_ref := r; row_alt := a; row_eff := b;
     row_pval := Some 0.25%float; row_se := Some 2%float; row_extra := [] |}.

Definition study (cases controls : Z) (fut : list MetaDat) (rows : list Row)
  : Study :=
  {| conf_name := "S"; conf_n_cases := cases; conf_n_controls := controls;
     conf_se := true; future := fut; fpoint := rows; eff_size := None |}.

Definition rec_AT : MetaDat := variant 1 100 "A" "T" (Some 0.5%float).
Definition rec_TA : MetaDat := variant 1 100 "T" "A" (Some 0.5%float).
Definition rec_AG : MetaDat := variant 1 100 "A" "G" (Some 0.5%float).
Definition rec_AC : MetaDat := variant 1 100 "A" "C" (Some 0.5%float).
Definition rec_GT : MetaDat := variant 1 100 "G" "T" (Some 0.5%float).
Definition rec_CT : MetaDat := variant 1 100 "C" "T" (Some 0.5%float).

(** A line whose effect column did not convert to [float]: the reader sets
    both the effect and the p-value to [None]; the standard error is
    converted on its own. *)
Definition line_unparsed : Row :=
  {| row_chr := "1"; row_pos := 100; row_ref := "A"; row_alt := "G";
     row_eff := None; row_pval := None; row_se := Some 2%float;
     row_extra := [] |}.

Definition rec_unparsed : MetaDat := MetaDat_of_row 1 line_unparsed.

(** A record with effect [1] and standard error [2]. *)
Definition rec_unit : MetaDat := variant 1 100 "A" "G" (Some 1%float).

(** Two lines at one site, then a line further on. *)
Definition three_lines : list Row :=
  [line "1" 100 "A" "G" (Some 0.5%float);
   line "1" 100 "A" "C" (Some 0.5%float);
   line "1" 200 "C" "T" (Some 0.5%float)].

(** The records of [three_lines]: [rec_AG], [rec_AC] and this one. *)
Definition rec_200 : MetaDat := variant 1 200 "C" "T" (Some 0.5%float).

(** Three lines at three sites. *)
Definition three_sites : list Row :=
  [line "1" 100 "A" "G" (Some 0.5%float);
   line "1" 200 "A" "C" (Some 0.5%float);
   line "1" 300 "C" "T" (Some 0.5%float)].

Definition target_200 : MetaDat := variant 1 200 "A" "C" (Some 0.5%float).

(** A file of one line. *)
Definition one_line : list Row := [line "1" 100 "A" "G" (Some 0.5%float)].

(** ** Further source functions and vocabulary *)

(** [MetaDat.__eq__] *)
Definition MetaDat_eq (self other : MetaDat) : bool :=
  (chr self =? chr other)%Z && (pos self =? pos other)%Z
  && String.eqb (ref self) (ref other) && String.eqb (alt self) (alt other).

(** An allele written with the keys of [flip] only. *)
Definition acgt (allele : string) : bool :=
  forallb (fun a => existsb (Ascii.eqb a) ["A"; "C"; "G"; "T"]%char)
          (list_ascii_of_string allele).

(** All records of a list are at the site of its first. *)
Definition one_site (l : list MetaDat) : bool :=
  match l with
  | [] => true
  | v :: l' => forallb (same_site v) l'
  end.

(** What [get_next_data] leaves in the deque behind a batch: nothing, or
    one record, of another site. *)
Definition ahead_ok (batch fut : list MetaDat) : Prop :=
  fut = []
  \/ exists l, fut = [l] /\ forall v, In v batch -> same_site v l = false.

(** The shape [get_match] keeps the deque in: records of one site, then
    at most one record, of another site. *)
Definition buffer_ok (fut : list MetaDat) : Prop :=
  exists group ahead,
    fut = group ++ ahead /\ one_site group = true /\ ahead_ok group ahead.

(** Where the file ends with respect to the reads of [get_next_data]
    (without [just_one]).  [head] is the first record of the group a read
    is assembling, [None] between two reads: a read starts at the first
    line of a known contig, goes on while the records are at the site of
    its first, and ends at the first record of another site, which it puts
    aside.  The answer is [true] when the end of the file falls between
    two reads, [false] when it falls inside one. *)
Fixpoint ends_between_reads (head : option MetaDat) (rows : list Row) : bool :=
  match rows with
  | [] => match head with
          | None => true
          | Some _ => false
          end
  | l :: rows' =>
      match dict_get chrord (row_chr l) with
      | None => ends_between_reads head rows'
      | Some c =>
          let v := MetaDat_of_row c l in
          match head with
          | None => ends_between_reads (Some v) rows'
          | Some v0 =>
              if same_site v0 v then ends_between_reads (Some v0) rows'
              else ends_between_reads None rows'
          end
      end
  end.

Definition ends_cleanly (rows : list Row) : bool :=
  ends_between_reads None rows.

(** The calls of a sequence, one after the other, each with its own
    account: what the study held before the call is what the call dropped,
    every record of which sorts strictly before the target of the call,
    what it returned, and what the study holds after it. *)
Inductive each_call_accounts
  : list MetaDat -> Study -> list (option MetaDat) -> Study -> Prop :=
| accounts_nil self : each_call_accounts [] self [] self
| accounts_cons dat targets self found self1 founds self' dropped taken :
    get_match dat self = Ok (found, self1) ->
    Forall (fun v => before v dat = true) dropped ->
    taken_by dat found taken ->
    Permutation (pending self) (dropped ++ taken ++ pending self1) ->
    each_call_accounts targets self1 founds self' ->
    each_call_accounts (dat :: targets) self (found :: founds) self'.

(** A pair [inv_var_meta] goes through without leaving its loop: a
    standard error that is neither [None] nor zero and whose square is not
    zero, and an effect. *)
Definition inv_var_usable (pair : Study * MetaDat) : bool :=
  match se (snd pair), beta (snd pair) with
  | Some s, Some _ =>
      negb (PrimFloat.eqb s 0) && negb (PrimFloat.eqb (s * s) 0)
  | _, _ => false
  end.

(** Two lines at two sites. *)
Definition two_sites : list Row :=
  [line "1" 100 "A" "G" (Some 0.5%float);
   line "1" 200 "A" "C" (Some 0.5%float)].

(** A record without a standard error. *)
Definition rec_no_se : MetaDat :=
  {| chr := 1; pos := 100; ref := "A"; alt := "G"; beta := Some 1%float;
     pval := Some 0.25%float; z_scr := None; se := None; extra_cols := [] |}.

(** A record whose reference allele is not a base. *)
Definition rec_NG : MetaDat := variant 1 100 "N" "G" (Some 0.5%float).

(** * Properties *)

(** ** Allele equalization *)

Section Equalize.

Lemma is_symmetric_cases a1 a2 :
  is_symmetric a1 a2 = true ->
  (a1 = "A" /\ a2 = "T")%string \/ (a1 = "T" /\ a2 = "A")%string
  \/ (a1 = "C" /\ a2 = "G")%string \/ (a1 = "G" /\ a2 = "C")%string.
Proof.
  unfold is_symmetric.
  rewrite !orb_true_iff, !andb_true_iff, !String.eqb_eq.
  tauto.
Qed.

(** The alleles of a palindromic pair are single bases of the table
    [flip]: the two strand flips [equalize] starts with do not raise. *)
Lemma flip_strand_symmetric a1 a2 :
  is_symmetric a1 a2 = true ->
  exists f1 f2, flip_strand a1 = Ok f1 /\ flip_strand a2 = Ok f2.
Proof.
  intros H.
  destruct (is_symmetric_cases _ _ H) as [[-> ->]|[[-> ->]|[[-> ->]|[-> ->]]]];
    cbn; eauto.
Qed.

Lemma same_site_true (a b : MetaDat) :
  chr a = chr b -> pos a = pos b ->
  ((chr a =? chr b)%Z && (pos a =? pos b)%Z) = true.
Proof.
  intros -> ->. now rewrite !Z.eqb_refl.
Qed.

Lemma same_site_false (a b : MetaDat) :
  chr a <> chr b \/ pos a <> pos b ->
  ((chr a =? chr b)%Z && (pos a =? pos b)%Z) = false.
Proof.
  rewrite andb_false_iff, !Z.eqb_neq. tauto.
Qed.

(** What the palindromic branch computes, as one equation. *)
Lemma equalize_symmetric_branch self other :
  chr self = chr other -> pos self = pos other ->
  is_symmetric (ref other) (alt other) = true ->
  equalize self other =
    Ok (if exact_order self other then (Some true, self)
        else if swapped_order self other then (Some true, swap_alleles self)
        else (None, self)).
Proof.
  intros Hc Hp Hs.
  destruct (flip_strand_symmetric _ _ Hs) as (f1 & f2 & E1 & E2).
  unfold equalize, exact_order, swapped_order.
  rewrite (same_site_true _ _ Hc Hp), E1, E2; cbn.
  rewrite Hs.
  destruct (String.eqb (ref self) (ref other) && String.eqb (alt self) (alt other));
    [reflexivity|].
  now destruct (String.eqb (ref self) (alt other) && String.eqb (alt self) (ref other)).
Qed.

(** A record [equalize] does not accept comes back as it went in. *)
Lemma equalize_rejected_unchanged self other r self' :
  equalize self other = Ok (r, self') ->
  truthy r = false ->
  self' = self.
Proof.
  unfold equalize.
  destruct ((chr self =? chr other)%Z && (pos self =? pos other)%Z);
    [|intros [= <- <-]; reflexivity].
  destruct (flip_strand (ref other)) as [f1| |]; cbn; try discriminate.
  destruct (flip_strand (alt other)) as [f2| |]; cbn; try discriminate.
  repeat match goal with
         | |- context [if ?c then _ else _] => destruct c
         end;
    intros [= <- <-]; cbn; congruence.
Qed.

(** [equalize] is a terminating computation. *)
Lemma flip_strand_fuel allele : flip_strand allele <> OutOfFuel.
Proof.
  induction allele as [|a rest IH]; cbn; [discriminate|].
  destruct (flip a); [|discriminate].
  destruct (flip_strand rest); cbn; congruence.
Qed.

Lemma equalize_fuel self other : equalize self other <> OutOfFuel.
Proof.
  unfold equalize.
  destruct ((chr self =? chr other)%Z && (pos self =? pos other)%Z);
    [|discriminate].
  pose proof (flip_strand_fuel (ref other)).
  pose proof (flip_strand_fuel (alt other)).
  destruct (flip_strand (ref other)); cbn; try congruence.
  destruct (flip_strand (alt other)); cbn; try congruence.
  repeat match goal with
         | |- context [if ?c then _ else _] => destruct c
         end; discriminate.
Qed.

(** C8.  When [(other.ref, other.alt)] is a palindromic pair, [equalize]
    decides on the alleles as written and never on their strand flips: an
    exact match returns [True] and leaves [self] as it is; a swapped-order
    match returns [True] and leaves [self] with its former [alt] as [ref],
    its former [ref] as [alt], its effect multiplied by [-1] ([None]
    staying [None]) and every other field as it was; every other
    combination returns [None], which the caller does not take for a
    match, and leaves [self] as it is. *)
Theorem equalize_palindromic_exact_or_swapped self other :
  chr self = chr other ->
  pos self = pos other ->
  is_symmetric (ref other) (alt other) = true ->
  (exact_order self other = true ->
   equalize self other = Ok (Some true, self))
  /\ (exact_order self other = false -> swapped_order self other = true ->
      equalize self other
      = Ok (Some true,
            {| chr := chr self;
               pos := pos self;
               ref := alt self;
               alt := ref self;
               beta := match beta self with
                       | Some b => Some ((-1) * b)%float
                       | None => None
                       end;
               pval := pval self;
               z_scr := z_scr self;
               se := se self;
               extra_cols := extra_cols self |}))
  /\ (exact_order self other = false -> swapped_order self other = false ->
      equalize self other = Ok (None, self)
      /\ truthy None = false).
Proof.
  intros Hc Hp Hs.
  rewrite (equalize_symmetric_branch _ _ Hc Hp Hs).
  split; [|split].
  - intros He. now rewrite He.
  - intros He Hw. now rewrite He, Hw.
  - intros He Hw. now rewrite He, Hw.
Qed.

(** C10.  When the chromosome or the position of the two records differ,
    and when they agree and the alleles of [other] are a palindromic pair
    that [self] matches neither exactly nor in swapped order, [equalize]
    returns [None] (not [False]) and [self] is unchanged; [other] is only
    ever read. *)
Theorem equalize_falls_through_to_None self other :
  (chr self <> chr other \/ pos self <> pos other)
  \/ (chr self = chr other /\ pos self = pos other
      /\ is_symmetric (ref other) (alt other) = true
      /\ exact_order self other = false
      /\ swapped_order self other = false) ->
  equalize self other = Ok (None, self).
Proof.
  intros [Hd|(Hc & Hp & Hs & He & Hw)].
  - unfold equalize. now rewrite (same_site_false _ _ Hd).
  - rewrite (equalize_symmetric_branch _ _ Hc Hp Hs), He, Hw. reflexivity.
Qed.

End Equalize.

Lemma equalize_palindromic_swapped_witness :
  chr rec_TA = chr rec_AT
  /\ pos rec_TA = pos rec_AT
  /\ is_symmetric (ref rec_AT) (alt rec_AT) = true
  /\ equalize rec_TA rec_AT
     = Ok (Some true, variant 1 100 "A" "T" (Some (-0.5)%float)).
Proof.
  do 3 (split; [reflexivity|]).
  destruct (equalize_palindromic_exact_or_swapped
              rec_TA rec_AT eq_refl eq_refl eq_refl) as (_ & Hswap & _).
  apply Hswap; reflexivity.
Defined.

Lemma equalize_falls_through_witness :
  chr rec_AG = chr rec_AT
  /\ pos rec_AG = pos rec_AT
  /\ is_symmetric (ref rec_AT) (alt rec_AT) = true
  /\ exact_order rec_AG rec_AT = false
  /\ swapped_order rec_AG rec_AT = false
  /\ equalize rec_AG rec_AT = Ok (None, rec_AG).
Proof.
  do 5 (split; [reflexivity|]).
  apply (equalize_falls_through_to_None rec_AG rec_AT).
  right. repeat split.
Defined.

(** C3.  [rec_AG] is not palindromic and [rec_CT] carries its two alleles
    strand-flipped and in swapped order: [rec_CT.ref] is the complement of
    [rec_AG.alt] and [rec_CT.alt] the complement of [rec_AG.ref].  The
    second test of the non-palindromic branch compares [self.alt] with
    [flip_alt] where the first compares with the flip of the matching
    allele, and [equalize] returns [False] with [self] unchanged. *)
Theorem equalize_rejects_flipped_swap :
  same_site rec_CT rec_AG = true
  /\ is_symmetric (ref rec_AG) (alt rec_AG) = false
  /\ flip_strand (alt rec_AG) = Ok (ref rec_CT)
  /\ flip_strand (ref rec_AG) = Ok (alt rec_CT)
  /\ equalize rec_CT rec_AG = Ok (Some false, rec_CT).
Proof.
  repeat split.
Qed.

(** C5.  [rec_AG] taken as [self] equalizes with [rec_GT] (swapped order,
    the reference allele strand-flipped); with the roles exchanged the same
    two records do not equalize. *)
Theorem equalize_outcome_depends_on_roles :
  same_site rec_AG rec_GT = true
  /\ equalize rec_AG rec_GT = Ok (Some true, swap_alleles rec_AG)
  /\ equalize rec_GT rec_AG = Ok (Some false, rec_GT).
Proof.
  repeat split.
Qed.

(** ** The combiners *)

Lemma effective_size_first_call self :
  eff_size self = None ->
  effective_size self =
    bind (int_truediv (4 * conf_n_cases self * conf_n_cases self)
                      (conf_n_cases self + conf_n_cases self))
         (fun e => Ok (e, {| conf_name := conf_name self;
                             conf_n_cases := conf_n_cases self;
                             conf_n_controls := conf_n_controls self;
                             conf_se := conf_se self;
                             future := future self;
                             fpoint := fpoint self;
                             eff_size := Some e |})).
Proof.
  intros H. unfold effective_size, n_controls, n_cases. now rewrite H.
Qed.

(** C7.  A study configured with 10 cases and 30 controls has effective
    size [4 * 10 * 30 / (10 + 30) = 30].  [n_controls] reads the case count,
    and [effective_size] returns [4 * 10 * 10 / (10 + 10) = 20]. *)
Theorem effective_size_reads_cases_twice :
  conf_n_cases (study 10 30 [] []) = 10%Z
  /\ conf_n_controls (study 10 30 [] []) = 30%Z
  /\ n_controls (study 10 30 [] []) = 10%Z
  /\ int_truediv (4 * 10 * 30) (10 + 30) = Ok 30%float
  /\ exists self',
      effective_size (study 10 30 [] []) = Ok (20%float, self')
      /\ eff_size self' = Some 20%float.
Proof.
  do 4 (split; [reflexivity|]).
  eexists. split; [vm_compute; reflexivity|reflexivity].
Qed.

(** C4.  For one pair with effect [1] and standard error [2] the
    numerator of the claim is [1 / 2^2 = 0.25] and the combined statistic
    [0.25 / sqrt 0.25 = 0.5].  The loop appends [var * beta = 4], and the
    function returns the survival of [4 / sqrt 0.25 = 8]. *)
Theorem inv_var_meta_multiplies_by_variance :
  beta rec_unit = Some 1%float
  /\ se rec_unit = Some 2%float
  /\ (1 / (2 * 2))%float = 0.25%float
  /\ inv_var_loop [(study 10 30 [] [], rec_unit)] [] 0%float
     = Ok ([4%float], 0.25%float)
  /\ forall norm_sf,
      inv_var_meta norm_sf [(study 10 30 [] [], rec_unit)]
      = Ok (Some (norm_sf 8%float)).
Proof.
  do 4 (split; [reflexivity|]).
  intros norm_sf. reflexivity.
Qed.

(** C6.  [rec_unparsed] is the record the reader makes of a line whose
    effect did not convert: its effect and p-value are [None], its standard
    error is usable.  Paired with a usable anchor record, each of the three
    combiners raises [TypeError]; none returns. *)
Theorem combiners_raise_on_missing_effect :
  beta rec_unparsed = None
  /\ pval rec_unparsed = None
  /\ se rec_unparsed = Some 2%float
  /\ forall norm_sf chi2_isf,
      let pairs := [(study 10 30 [] [], rec_unparsed);
                    (study 20 20 [] [], rec_unit)] in
      n_meta norm_sf chi2_isf pairs = Raise TypeError
      /\ inv_var_meta norm_sf pairs = Raise TypeError
      /\ variance_weight_meta norm_sf chi2_isf pairs = Raise TypeError.
Proof.
  do 3 (split; [reflexivity|]).
  intros norm_sf chi2_isf. repeat split.
Qed.

(** ** The stream *)

Section Stream.

Lemma put_back_future metadat self :
  future (put_back metadat self) = rev metadat ++ future self.
Proof.
  unfold put_back; cbn.
  generalize (future self).
  induction metadat as [|m metadat IH]; intros q; cbn; [reflexivity|].
  now rewrite IH, <- app_assoc.
Qed.

Lemma put_back_fpoint metadat self :
  fpoint (put_back metadat self) = fpoint self.
Proof. reflexivity. Qed.

End Stream.

(** C2.  The first batch of [three_lines] is its two records at site
    (1, 100), read in file order.  Pushed back, they sit at the front of
    the deque in the opposite order, and the next batch returns them in
    that opposite order. *)
Theorem put_back_reverses_batch :
  records three_lines = [rec_AG; rec_AC; rec_200]
  /\ get_next_data false (study 10 30 [] three_lines)
     = (Some [rec_AG; rec_AC], study 10 30 [rec_200] [])
  /\ future (put_back [rec_AG; rec_AC] (study 10 30 [rec_200] []))
     = [rec_AC; rec_AG; rec_200]
  /\ get_next_data false (put_back [rec_AG; rec_AC] (study 10 30 [rec_200] []))
     = (Some [rec_AC; rec_AG], study 10 30 [rec_200] []).
Proof.
  repeat split.
Qed.

(** C9.  A call of [get_match] for a target at site (1, 100) that neither
    record of the site equalizes with pushes both back.  With the two in
    the deque, [get_next_data] with [just_one] set returns both and takes
    both out: the buffered branch does not read [just_one]. *)
Theorem get_next_data_buffered_ignores_just_one :
  get_match rec_AT (study 10 30 [] three_lines)
  = Ok (None, study 10 30 [rec_AC; rec_AG; rec_200] [])
  /\ get_next_data true (study 10 30 [rec_AC; rec_AG; rec_200] [])
     = (Some [rec_AC; rec_AG], study 10 30 [rec_200] [])
  /\ get_next_data true (study 10 30 [rec_AC; rec_AG; rec_200] [])
     = get_next_data false (study 10 30 [rec_AC; rec_AG; rec_200] []).
Proof.
  repeat split.
Qed.

(** ** Conservation *)

Section Deque.

Context {A : Type}.
Implicit Types (l pre : list A) (P : nat * A -> bool).

Lemma del_at_middle pre x l :
  del_at (List.length pre) (pre ++ x :: l) = pre ++ l.
Proof.
  induction pre as [|a pre IH]; [reflexivity|].
  unfold del_at in *; cbn [List.length firstn app].
  change (skipn (S (S (List.length pre))) (a :: pre ++ x :: l))
    with (skipn (S (List.length pre)) (pre ++ x :: l)).
  cbn [app]. now rewrite IH.
Qed.

Lemma map_snd_enumerate_from k l :
  map snd (combine (seq k (List.length l)) l) = l.
Proof.
  revert k; induction l as [|x l IH]; intros k; cbn; [reflexivity|].
  now rewrite IH.
Qed.

Lemma filter_split_Permutation (B : Type) (Q : B -> bool) (e : list B) :
  Permutation e (filter Q e ++ filter (fun b => negb (Q b)) e).
Proof.
  induction e as [|b e IH]; cbn; [constructor|].
  destruct (Q b); cbn.
  - now constructor.
  - now apply Permutation_cons_app.
Qed.

(** Deleting the selected indices from the last to the first leaves the
    records that were not selected, in order. *)
Lemma del_selected P pre l :
  fold_right (fun (iv : nat * A) q => del_at (fst iv) q) (pre ++ l)
             (filter P (combine (seq (List.length pre) (List.length l)) l))
  = pre ++ map snd (filter (fun iv => negb (P iv))
                           (combine (seq (List.length pre) (List.length l)) l)).
Proof.
  revert pre; induction l as [|x l IH]; intros pre; cbn; [reflexivity|].
  specialize (IH (pre ++ [x])).
  rewrite length_app, Nat.add_1_r, <- !app_assoc in IH; cbn in IH.
  destruct (P (List.length pre, x)); cbn; rewrite IH.
  - apply del_at_middle.
  - reflexivity.
Qed.

End Deque.

Section Conservation.

Implicit Types (self : Study) (dat : MetaDat) (rows : list Row).

Lemma del_all_fold f fut :
  del_all f fut = fold_right (fun (iv : nat * MetaDat) q => del_at (fst iv) q) fut f.
Proof.
  unfold del_all.
  rewrite <- (rev_involutive f) at 2.
  now rewrite fold_left_rev_right.
Qed.

Lemma buffered_Permutation fut :
  Permutation fut (map snd (buffered fut) ++ del_all (buffered fut) fut).
Proof.
  rewrite del_all_fold. unfold buffered, enumerate.
  rewrite (del_selected _ [] fut); cbn.
  rewrite <- map_app.
  rewrite <- (map_snd_enumerate_from 0 fut) at 1.
  apply Permutation_map, filter_split_Permutation.
Qed.

Lemma buffered_head v fut :
  exists rest, map snd (buffered (v :: fut)) = v :: rest.
Proof.
  unfold buffered, enumerate; cbn. eauto.
Qed.

(** What a successful read accounts for: the records of the lines read
    are, in order, those appended to [vars] and the one put aside in
    [future]. *)
Lemma read_rows_Some just_one vars fut rows batch fut' rows' :
  read_rows just_one vars fut rows = (Some batch, (fut', rows')) ->
  exists more ahead,
    batch = vars ++ more
    /\ fut' = fut ++ ahead
    /\ records rows = more ++ ahead ++ records rows'
    /\ List.length ahead + List.length rows' <= List.length rows
    /\ (vars = [] ->
        more <> [] /\ List.length ahead + List.length rows' < List.length rows).
Proof.
  revert vars; induction rows as [|l rows IH]; intros vars;
    cbn [read_rows records List.length]; [discriminate|].
  destruct (dict_get chrord (row_chr l)) as [c|].
  - destruct (match vars with [] => true | v0 :: _ => same_site v0 (MetaDat_of_row c l) end)
      eqn:Hsite.
    + destruct just_one.
      * intros [= <- <- <-]. exists [MetaDat_of_row c l], [].
        rewrite app_nil_r. cbn.
        repeat split; try lia; discriminate.
      * intros H. destruct (IH _ H) as (more & ahead & -> & -> & E & Hlen & _).
        exists (MetaDat_of_row c l :: more), ahead.
        rewrite <- app_assoc, E. cbn.
        repeat split; try lia; discriminate.
    + intros [= <- <- <-]. exists [], [MetaDat_of_row c l].
      rewrite app_nil_r. cbn.
      split; [reflexivity|]. split; [reflexivity|]. split; [reflexivity|].
      split; [lia|]. intros ->. discriminate.
  - intros H. destruct (IH _ H) as (more & ahead & -> & -> & E & Hlen & Hnil).
    exists more, ahead.
    do 3 (split; [reflexivity || assumption|]).
    split; [lia|].
    intros Hv. destruct (Hnil Hv). split; [assumption|lia].
Qed.

(** The end of the file: [None], and nothing is left to read. *)
Lemma read_rows_None just_one vars fut rows fut' rows' :
  read_rows just_one vars fut rows = (None, (fut', rows')) ->
  rows' = [] /\ fut' = fut.
Proof.
  revert vars; induction rows as [|l rows IH]; intros vars; cbn [read_rows].
  - now intros [= <- <-].
  - destruct (dict_get chrord (row_chr l)) as [c|]; [|apply IH].
    destruct (match vars with [] => true | v0 :: _ => same_site v0 (MetaDat_of_row c l) end).
    + destruct just_one; [discriminate|apply IH].
    + discriminate.
Qed.

Lemma get_next_data_Some just_one self batch self' :
  get_next_data just_one self = (Some batch, self') ->
  Permutation (pending self) (batch ++ pending self')
  /\ batch <> []
  /\ get_match_fuel self' < get_match_fuel self.
Proof.
  unfold get_next_data, pending, get_match_fuel.
  destruct (future self) as [|v fut] eqn:Hfut.
  - destruct (read_rows just_one [] [] (fpoint self)) as (vars & fut' & rows') eqn:Hread.
    intros [= -> <-]; cbn.
    destruct (read_rows_Some _ _ _ _ Hread) as (more & ahead & -> & -> & E & _ & Hnil).
    destruct (Hnil eq_refl) as (Hne & Hlen).
    cbn. rewrite E. repeat split; [reflexivity|assumption|cbn; lia].
  - intros [= <- <-]; cbn [future fpoint with_stream].
    pose proof (buffered_Permutation (v :: fut)) as Hperm.
    destruct (buffered_head v fut) as (rest & Hhead).
    split; [|split].
    + rewrite app_assoc. now apply Permutation_app_tail.
    + change (map snd (buffered (v :: fut)) <> []).
      rewrite Hhead. discriminate.
    + change (S (List.length (del_all (buffered (v :: fut)) (v :: fut))
                 + List.length (fpoint self))
              < S (S (List.length fut) + List.length (fpoint self))).
      apply Permutation_length in Hperm.
      rewrite length_app, Hhead in Hperm. cbn [List.length] in Hperm. lia.
Qed.

Lemma get_next_data_None just_one self self' :
  get_next_data just_one self = (None, self') ->
  fpoint self' = [].
Proof.
  unfold get_next_data.
  destruct (future self) as [|v fut]; [|discriminate].
  destruct (read_rows just_one [] [] (fpoint self)) as (vars & fut' & rows') eqn:Hread.
  intros [= -> <-]; cbn.
  now destruct (read_rows_None _ _ _ _ Hread).
Qed.

Lemma pending_put_back metadat self :
  Permutation (pending (put_back metadat self)) (metadat ++ pending self).
Proof.
  unfold pending. rewrite put_back_future, put_back_fpoint, <- app_assoc.
  apply Permutation_app_tail. symmetry. apply Permutation_rev.
Qed.

(** The [while]: what it drops, what it hands on. *)
Lemma skip_before_accounts fuel dat batch self otherdats self' :
  skip_before fuel dat (Some batch) self = Ok (otherdats, self') ->
  match otherdats with
  | None => fpoint self' = []
  | Some batch' =>
      exists dropped,
        Forall (dropped_batch dat) dropped
        /\ Permutation (batch ++ pending self)
                       (List.concat dropped ++ batch' ++ pending self')
  end.
Proof.
  revert batch self; induction fuel as [|fuel IH]; intros batch self;
    cbn [skip_before]; destruct batch as [|o rest]; try discriminate;
    destruct (before o dat) eqn:Hbefore; try discriminate;
    try (intros [= <- <-]; exists []; split; [constructor|reflexivity]).
  destruct (get_next_data false self) as [[next|] self1] eqn:Hnext.
  - intros H. specialize (IH _ _ H).
    destruct (get_next_data_Some _ _ Hnext) as (Hperm & _ & _).
    destruct otherdats as [batch'|]; [|assumption].
    destruct IH as (dropped & Hdropped & Hacc).
    exists ((o :: rest) :: dropped). split.
    + constructor; [|assumption]. now exists o, rest.
    + cbn [List.concat]. rewrite <- app_assoc.
      apply Permutation_app_head.
      now rewrite Hperm.
  - cbn. destruct fuel; intros [= <- <-]; apply (get_next_data_None _ _ Hnext).
Qed.

(** With more fuel than [get_next_data] can make rounds, the [while]
    ends. *)
Lemma skip_before_fuel fuel dat otherdats self :
  get_match_fuel self <= fuel ->
  skip_before fuel dat otherdats self <> OutOfFuel.
Proof.
  revert otherdats self; induction fuel as [|fuel IH]; intros otherdats self Hfuel;
    [unfold get_match_fuel in Hfuel; lia|].
  cbn [skip_before]. destruct otherdats as [[|o rest]|]; try discriminate.
  destruct (before o dat); [|discriminate].
  destruct (get_next_data false self) as [[next|] self1] eqn:Hnext.
  - apply IH. destruct (get_next_data_Some _ _ Hnext) as (_ & _ & Hlt). lia.
  - destruct fuel; discriminate.
Qed.

(** The [for]: the record returned was in the batch once and is not in
    the list pushed back. *)
Lemma scan_accounts dat seen todo found remaining :
  scan dat seen todo = Ok (found, remaining) ->
  exists taken,
    taken_by dat found taken
    /\ Permutation (seen ++ todo) (taken ++ remaining).
Proof.
  revert seen; induction todo as [|v todo IH]; intros seen; cbn [scan].
  - intros [= <- <-]. exists []. split; [reflexivity|].
    now rewrite app_nil_r.
  - destruct (equalize v dat) as [[r v']| |] eqn:Heq; cbn [bind]; try discriminate.
    destruct (truthy r) eqn:Hr.
    + intros [= <- <-]. exists [v]. split.
      * exists v. split; [reflexivity|].
        destruct r as [[|]|]; try discriminate. assumption.
      * cbn. symmetry. apply Permutation_middle.
    + rewrite (equalize_rejected_unchanged _ _ Heq Hr).
      intros H. destruct (IH _ H) as (taken & Htaken & Hperm).
      exists taken. split; [assumption|].
      now rewrite <- app_assoc in Hperm.
Qed.

Lemma scan_fuel dat seen todo : scan dat seen todo <> OutOfFuel.
Proof.
  revert seen; induction todo as [|v todo IH]; intros seen; cbn [scan];
    [discriminate|].
  pose proof (equalize_fuel v dat).
  destruct (equalize v dat) as [[r v']| |]; cbn [bind]; try congruence.
  destruct (truthy r); [discriminate|apply IH].
Qed.

(** The [while] of [get_match] always ends: the call returns or raises. *)
Lemma get_match_terminates dat self : get_match dat self <> OutOfFuel.
Proof.
  unfold get_match.
  destruct (get_next_data false self) as [[[|o rest]|] self1]; try discriminate.
  pose proof (@skip_before_fuel (get_match_fuel self1) dat (Some (o :: rest)) self1
                                (le_n _)) as Hskip.
  destruct (skip_before _ dat (Some (o :: rest)) self1) as [[[[|o2 rest2]|] self2]| |];
    cbn [bind]; try congruence; try discriminate.
  destruct (beyond o2 dat); [discriminate|].
  pose proof (scan_fuel dat [] (o2 :: rest2)).
  destruct (scan dat [] (o2 :: rest2)) as [[found remaining]| |];
    cbn [bind]; congruence.
Qed.

Lemma get_next_data_exhausted just_one self :
  fpoint self = [] ->
  fpoint (snd (get_next_data just_one self)) = [].
Proof.
  intros Hrows. unfold get_next_data.
  destruct (future self); [|assumption].
  rewrite Hrows. reflexivity.
Qed.

Lemma skip_before_exhausted fuel dat otherdats self result self' :
  skip_before fuel dat otherdats self = Ok (result, self') ->
  fpoint self = [] ->
  fpoint self' = [].
Proof.
  revert otherdats self; induction fuel as [|fuel IH]; intros otherdats self;
    cbn [skip_before]; destruct otherdats as [[|o rest]|]; try discriminate;
    try (intros [= <- <-]; trivial);
    destruct (before o dat); try discriminate;
    try (intros [= <- <-]; trivial).
  pose proof (get_next_data_exhausted false self) as Hnext.
  destruct (get_next_data false self) as [next self1].
  intros H Hrows. apply (IH _ _ H). now apply Hnext.
Qed.

(** The unread part of the file does not grow back. *)
Lemma get_match_exhausted dat self found self' :
  get_match dat self = Ok (found, self') ->
  fpoint self = [] ->
  fpoint self' = [].
Proof.
  unfold get_match. intros H Hrows.
  pose proof (get_next_data_exhausted false self Hrows) as Hfirst.
  destruct (get_next_data false self) as [[[|o rest]|] self1]; cbn [snd] in Hfirst;
    try (injection H as <- <-; assumption).
  destruct (skip_before _ dat (Some (o :: rest)) self1)
    as [[[[|o2 rest2]|] self2]| |] eqn:Hskip; cbn [bind] in H; try discriminate;
    pose proof (skip_before_exhausted _ _ _ _ Hskip Hfirst) as Hsecond.
  - destruct (beyond o2 dat); [injection H as <- <-; assumption|].
    destruct (scan dat [] (o2 :: rest2)) as [[found' remaining]| |];
      cbn [bind] in H; try discriminate.
    injection H as <- <-. assumption.
  - injection H as <- <-. assumption.
Qed.

Lemma get_matches_exhausted targets self founds self' :
  get_matches targets self = Ok (founds, self') ->
  fpoint self = [] ->
  fpoint self' = [].
Proof.
  revert self founds; induction targets as [|dat targets IH]; intros self founds;
    cbn [get_matches].
  - now intros [= <- <-].
  - destruct (get_match dat self) as [[found self1]| |] eqn:Hcall;
      cbn [bind]; try discriminate.
    destruct (get_matches targets self1) as [[founds' self2]| |] eqn:Hrest;
      cbn [bind]; try discriminate.
    intros [= <- <-] Hrows.
    apply (IH _ _ Hrest), (get_match_exhausted _ _ Hcall Hrows).
Qed.

Lemma get_matches_terminates targets self :
  get_matches targets self <> OutOfFuel.
Proof.
  revert self; induction targets as [|dat targets IH]; intros self;
    cbn [get_matches]; [discriminate|].
  pose proof (get_match_terminates dat self).
  destruct (get_match dat self) as [[found self1]| |]; cbn [bind]; try congruence.
  specialize (IH self1).
  destruct (get_matches targets self1) as [[founds self2]| |]; cbn [bind];
    congruence.
Qed.

End Conservation.

(** C1, as worded.  [three_sites] holds one record at each of the sites
    (1, 100), (1, 200) and (1, 300).  A call for the target at (1, 200)
    returns the second record and leaves the third unread; the first was
    pulled and dropped by the [while].  It is neither the match nor held any
    more. *)
Lemma matched_or_kept_fails_on_three_sites :
  ~ matched_or_kept [target_200] (study 10 30 [] three_sites).
Proof.
  intros Hclaim.
  destruct (Hclaim (conj I I) [Some target_200]
                   (study 10 30 [] [line "1" 300 "C" "T" (Some 0.5%float)])
                   eq_refl) as (taken & Htaken & Hperm).
  inversion Htaken as [|dat targets found founds t ts Ht Hts]; subst.
  inversion Hts; subst.
  destruct Ht as (v & -> & _).
  apply Permutation_length in Hperm. discriminate Hperm.
Qed.

(** The reading loop at the end of the file: the group being assembled
    when the file ends is not returned.  A file of one line yields no batch
    and [get_match] finds nothing for the very record the line holds. *)
Example get_match_loses_last_group :
  get_next_data false (study 10 30 [] one_line) = (None, study 10 30 [] [])
  /\ get_match rec_AG (study 10 30 [] one_line) = Ok (None, study 10 30 [] [])
  /\ records one_line = [rec_AG]
  /\ equalize rec_AG rec_AG = Ok (Some true, rec_AG).
Proof.
  repeat split.
Qed.

(** * Further properties *)

(** ** Alleles *)

Section Alleles.

Lemma flip_cases a b :
  flip a = Some b ->
  (a = "A" /\ b = "T")%char \/ (a = "C" /\ b = "G")%char
  \/ (a = "T" /\ b = "A")%char \/ (a = "G" /\ b = "C")%char.
Proof.
  unfold flip.
  destruct (Ascii.eqb_spec a "A"); [intros [= <-]; auto|].
  destruct (Ascii.eqb_spec a "C"); [intros [= <-]; auto|].
  destruct (Ascii.eqb_spec a "T"); [intros [= <-]; auto|].
  destruct (Ascii.eqb_spec a "G"); [intros [= <-]; auto 6|].
  discriminate.
Qed.

Lemma flip_flip a b : flip a = Some b -> flip b = Some a.
Proof.
  intros H.
  destruct (flip_cases _ H) as [[-> ->]|[[-> ->]|[[-> ->]|[-> ->]]]]; reflexivity.
Qed.

Lemma flip_key a :
  existsb (Ascii.eqb a) ["A"; "C"; "G"; "T"]%char
  = match flip a with Some _ => true | None => false end.
Proof.
  unfold flip; cbn.
  destruct (Ascii.eqb a "A"), (Ascii.eqb a "C"), (Ascii.eqb a "T"),
    (Ascii.eqb a "G"); reflexivity.
Qed.

Lemma flip_strand_acgt allele :
  if acgt allele
  then exists flipped, flip_strand allele = Ok flipped
  else flip_strand allele = Raise KeyError.
Proof.
  unfold acgt.
  induction allele as [|a rest IH]; cbn [flip_strand list_ascii_of_string forallb];
    [now exists EmptyString|].
  rewrite flip_key.
  destruct (flip a) as [b|]; [|reflexivity].
  cbn [andb].
  destruct (forallb _ (list_ascii_of_string rest)).
  - destruct IH as (r & ->). now exists (String b r).
  - now rewrite IH.
Qed.

Lemma flip_strand_Ok allele flipped :
  flip_strand allele = Ok flipped ->
  String.length flipped = String.length allele /\ acgt flipped = true.
Proof.
  revert flipped; induction allele as [|a rest IH]; intros flipped; cbn.
  - now intros [= <-].
  - destruct (flip a) as [b|] eqn:Ha; [|discriminate].
    destruct (flip_strand rest) as [r| |]; cbn; try discriminate.
    intros [= <-]. destruct (IH r eq_refl) as [Hlen Hacgt].
    split; [cbn; now rewrite Hlen|].
    unfold acgt in *. cbn [list_ascii_of_string forallb].
    now rewrite flip_key, (flip_flip _ Ha), Hacgt.
Qed.

End Alleles.

(** X1.  A strand flip undoes itself: flipping the flipped allele gives the
    allele back. *)
Theorem flip_strand_involutive allele flipped :
  flip_strand allele = Ok flipped ->
  flip_strand flipped = Ok allele.
Proof.
  revert flipped; induction allele as [|a rest IH]; intros flipped; cbn.
  - now intros [= <-].
  - destruct (flip a) as [b|] eqn:Ha; [|discriminate].
    destruct (flip_strand rest) as [r| |]; cbn; try discriminate.
    intros [= <-]. cbn.
    now rewrite (flip_flip _ Ha), (IH r eq_refl).
Qed.

Lemma flip_strand_involutive_witness :
  flip_strand "GATTACA" = Ok "CTAATGT"%string
  /\ flip_strand "CTAATGT" = Ok "GATTACA"%string.
Proof.
  split; [reflexivity|].
  apply (@flip_strand_involutive "GATTACA" "CTAATGT"). reflexivity.
Defined.

(** X2.  [flip_strand] raises [KeyError] exactly on an allele with a
    character other than A, C, G, T; on every other allele it returns a
    string of the same length, itself written with A, C, G, T only. *)
Theorem flip_strand_KeyError_iff allele :
  (acgt allele = false <-> flip_strand allele = Raise KeyError)
  /\ (acgt allele = true <->
      exists flipped,
        flip_strand allele = Ok flipped
        /\ String.length flipped = String.length allele
        /\ acgt flipped = true).
Proof.
  pose proof (flip_strand_acgt allele) as H.
  destruct (acgt allele).
  - destruct H as (r & Hr). split.
    + split; [discriminate|]. rewrite Hr. discriminate.
    + split; [|reflexivity]. intros _. exists r.
      split; [assumption|]. now apply flip_strand_Ok.
  - split.
    + now split.
    + split; [discriminate|]. intros (r & Hr & _). rewrite H in Hr.
      discriminate.
Qed.

(** X3.  A palindromic pair is a pair of single bases each of which is the
    strand flip of the other, and the test does not depend on the order of
    its arguments. *)
Theorem is_symmetric_complementary a1 a2 :
  is_symmetric a1 a2 = true ->
  flip_strand a1 = Ok a2
  /\ flip_strand a2 = Ok a1
  /\ String.length a1 = 1
  /\ is_symmetric a2 a1 = true.
Proof.
  intros H.
  destruct (is_symmetric_cases _ _ H) as [[-> ->]|[[-> ->]|[[-> ->]|[-> ->]]]];
    repeat split.
Qed.

Lemma is_symmetric_complementary_witness :
  is_symmetric "C" "G" = true
  /\ flip_strand "C" = Ok "G"%string
  /\ flip_strand "G" = Ok "C"%string
  /\ String.length "C" = 1
  /\ is_symmetric "G" "C" = true.
Proof.
  split; [reflexivity|].
  apply (@is_symmetric_complementary "C" "G"). reflexivity.
Defined.

(** ** [equalize] and [__eq__] *)

Lemma equalize_Ok_inv self other r self' :
  equalize self other = Ok (r, self') ->
  (self' = self \/ (r = Some true /\ self' = swap_alleles self))
  /\ chr self' = chr self
  /\ pos self' = pos self
  /\ (r = Some true -> same_site self other = true).
Proof.
  unfold equalize, same_site.
  destruct ((chr self =? chr other)%Z && (pos self =? pos other)%Z).
  2:{ intros [= <- <-]. repeat split; auto; discriminate. }
  destruct (flip_strand (ref other)) as [f1| |]; cbn [bind]; try discriminate.
  destruct (flip_strand (alt other)) as [f2| |]; cbn [bind]; try discriminate.
  repeat match goal with
         | |- context [if ?c then _ else _] => destruct c
         end;
    intros [= <- <-]; repeat split; auto.
Qed.

(** X4.  Whatever [equalize] returns, [self] afterwards is [self] as it
    was or, only together with [True], [self] with its alleles swapped and
    its effect negated; its chromosome and position never change.  [True]
    is only returned for two records at one site. *)
Theorem equalize_outcomes self other r self' :
  equalize self other = Ok (r, self') ->
  (self' = self \/ (r = Some true /\ self' = swap_alleles self))
  /\ chr self' = chr self
  /\ pos self' = pos self
  /\ (r = Some true -> same_site self other = true).
Proof.
  apply equalize_Ok_inv.
Qed.

Lemma equalize_outcomes_witness :
  equalize rec_TA rec_AT = Ok (Some true, swap_alleles rec_TA)
  /\ (swap_alleles rec_TA = rec_TA
      \/ (Some true = Some true /\ swap_alleles rec_TA = swap_alleles rec_TA))
  /\ chr (swap_alleles rec_TA) = chr rec_TA
  /\ pos (swap_alleles rec_TA) = pos rec_TA
  /\ (Some true = Some true -> same_site rec_TA rec_AT = true).
Proof.
  split; [reflexivity|].
  apply (@equalize_outcomes rec_TA rec_AT (Some true) (swap_alleles rec_TA)).
  reflexivity.
Defined.

(** X5.  Two records that [__eq__] holds equal equalize: when the alleles
    of [other] are written with A, C, G, T, [equalize] returns [True] and
    does not touch [self]. *)
Theorem eq_records_equalize self other :
  MetaDat_eq self other = true ->
  acgt (ref other) = true ->
  acgt (alt other) = true ->
  equalize self other = Ok (Some true, self).
Proof.
  unfold MetaDat_eq. rewrite !andb_true_iff.
  intros [[[Hc Hp] Hr] Ha] Hacgt_r Hacgt_a.
  pose proof (flip_strand_acgt (ref other)) as H1.
  pose proof (flip_strand_acgt (alt other)) as H2.
  rewrite Hacgt_r in H1. rewrite Hacgt_a in H2.
  destruct H1 as (f1 & E1). destruct H2 as (f2 & E2).
  unfold equalize. rewrite Hc, Hp, E1, E2. cbn [bind andb].
  rewrite Hr, Ha. cbn [andb orb].
  now destruct (is_symmetric (ref other) (alt other)).
Qed.

Lemma eq_records_equalize_witness :
  MetaDat_eq rec_AG rec_AG = true
  /\ acgt (ref rec_AG) = true
  /\ acgt (alt rec_AG) = true
  /\ equalize rec_AG rec_AG = Ok (Some true, rec_AG).
Proof.
  do 3 (split; [reflexivity|]).
  apply (@eq_records_equalize rec_AG rec_AG); reflexivity.
Defined.

Lemma equalize_Raise_inv self other e :
  equalize self other = Raise e ->
  e = KeyError
  /\ same_site self other = true
  /\ (acgt (ref other) = false \/ acgt (alt other) = false).
Proof.
  unfold equalize, same_site.
  destruct ((chr self =? chr other)%Z && (pos self =? pos other)%Z);
    [|discriminate].
  pose proof (flip_strand_acgt (ref other)) as H1.
  pose proof (flip_strand_acgt (alt other)) as H2.
  destruct (acgt (ref other)).
  - destruct H1 as (f1 & ->). cbn [bind].
    destruct (acgt (alt other)).
    + destruct H2 as (f2 & ->). cbn [bind].
      repeat match goal with
             | |- context [if ?c then _ else _] => destruct c
             end; discriminate.
    + rewrite H2. cbn [bind]. intros [= <-]. auto.
  - rewrite H1. cbn [bind]. intros [= <-]. auto.
Qed.

(** X6.  The only exception [equalize] raises is the [KeyError] of
    [flip_strand], and only for two records at one site where an allele of
    [other] has a character other than A, C, G, T.  The alleles of [self]
    are never flipped. *)
Theorem equalize_raises_KeyError_only self other e :
  equalize self other = Raise e ->
  e = KeyError
  /\ same_site self other = true
  /\ (acgt (ref other) = false \/ acgt (alt other) = false).
Proof.
  apply equalize_Raise_inv.
Qed.

Lemma equalize_raises_KeyError_only_witness :
  equalize rec_AG rec_NG = Raise KeyError
  /\ KeyError = KeyError
  /\ same_site rec_AG rec_NG = true
  /\ (acgt (ref rec_NG) = false \/ acgt (alt rec_NG) = false).
Proof.
  split; [reflexivity|].
  apply (@equalize_raises_KeyError_only rec_AG rec_NG KeyError). reflexivity.
Defined.

(** ** The chromosome table *)

Section Chrord.

Lemma dict_get_In d key c : dict_get d key = Some c -> In c (map snd d).
Proof.
  induction d as [|[k v] d IH]; cbn; [discriminate|].
  destruct (String.eqb k key); [intros [= <-]; now left|].
  intros H. right. now apply IH.
Qed.

Lemma chrord_codes key c :
  dict_get chrord key = Some c -> (1 <= c <= 25)%Z.
Proof.
  intros H. apply dict_get_In in H.
  assert (Hall : forallb (fun c => (1 <=? c)%Z && (c <=? 25)%Z)
                         (map snd chrord) = true) by reflexivity.
  rewrite forallb_forall in Hall. specialize (Hall _ H).
  apply andb_true_iff in Hall. lia.
Qed.

Lemma range_In lo hi c : (lo <= c < hi)%Z -> In c (range lo hi).
Proof.
  intros H. unfold range. apply in_map_iff.
  exists (Z.to_nat (c - lo)). split; [lia|].
  apply in_seq. lia.
Qed.

Lemma records_codes rows v : In v (records rows) -> (1 <= chr v <= 25)%Z.
Proof.
  induction rows as [|l rows IH]; cbn [records]; [contradiction|].
  destruct (dict_get chrord (row_chr l)) as [c|] eqn:Hc; [|exact IH].
  intros [<-|H]; [|now apply IH].
  exact (chrord_codes _ Hc).
Qed.

End Chrord.

(** X7.  Autosomes are recognised under two spellings, the number alone
    and the number after the prefix chr, and both give the number as the
    chromosome code.  The sex chromosomes and the mitochondrial contig are
    recognised with the prefix only: the bare names X, Y and MT are not
    keys of the table. *)
Theorem chrord_spellings :
  (forall c, (1 <= c <= 22)%Z ->
             dict_get chrord (str c) = Some c
             /\ dict_get chrord ("chr" ++ str c) = Some c)
  /\ dict_get chrord "chrX" = Some 23%Z
  /\ dict_get chrord "chrY" = Some 24%Z
  /\ dict_get chrord "chrMT" = Some 25%Z
  /\ dict_get chrord "X" = None
  /\ dict_get chrord "Y" = None
  /\ dict_get chrord "MT" = None.
Proof.
  split; [|repeat split].
  intros c Hc.
  assert (Hall : forallb
                   (fun c => match dict_get chrord (str c),
                                   dict_get chrord ("chr" ++ str c) with
                             | Some a, Some b => (a =? c)%Z && (b =? c)%Z
                             | _, _ => false
                             end)
                   (range 1 23) = true) by reflexivity.
  rewrite forallb_forall in Hall.
  specialize (Hall c (@range_In 1 23 c ltac:(lia))).
  destruct (dict_get chrord (str c)) as [a|]; [|discriminate].
  destruct (dict_get chrord ("chr" ++ str c)) as [b|]; [|discriminate].
  apply andb_true_iff in Hall. destruct Hall as [Ha Hb].
  apply Z.eqb_eq in Ha, Hb. now subst.
Qed.

(** ** Reading *)

Section Reading.

Implicit Types (self : Study) (rows : list Row).

(** What [read_rows] takes from the file is a prefix of the unread
    lines. *)
Lemma read_rows_suffix just_one vars fut rows res fut' rows' :
  read_rows just_one vars fut rows = (res, (fut', rows')) ->
  exists consumed, rows = consumed ++ rows'.
Proof.
  revert vars; induction rows as [|l rows IH]; intros vars; cbn [read_rows].
  - intros [= <- <- <-]. now exists [].
  - destruct (dict_get chrord (row_chr l)) as [c|].
    + destruct (match vars with [] => true | v0 :: _ => same_site v0 (MetaDat_of_row c l) end).
      * destruct just_one.
        -- intros [= <- <- <-]. now exists [l].
        -- intros H. destruct (IH _ H) as (consumed & ->). now exists (l :: consumed).
      * intros [= <- <- <-]. now exists [l].
    + intros H. destruct (IH _ H) as (consumed & ->). now exists (l :: consumed).
Qed.

Lemma get_next_data_suffix just_one self res self' :
  get_next_data just_one self = (res, self') ->
  exists consumed, fpoint self = consumed ++ fpoint self'.
Proof.
  unfold get_next_data.
  destruct (future self) as [|v fut].
  - destruct (read_rows just_one [] [] (fpoint self)) as (vars & fut' & rows') eqn:Hread.
    intros [= <- <-]. cbn [fpoint with_stream].
    exact (read_rows_suffix _ _ _ _ Hread).
  - intros [= <- <-]. now exists [].
Qed.

(** With [just_one] set and nothing appended yet, the loop returns the
    first record of the unread lines, alone, and puts nothing aside. *)
Lemma read_rows_just_one fut rows res fut' rows' :
  read_rows true [] fut rows = (res, (fut', rows')) ->
  fut' = fut
  /\ match res with
     | None => records rows = [] /\ rows' = []
     | Some batch =>
         exists v, batch = [v]
                   /\ records rows = v :: records rows'
                   /\ List.length rows' < List.length rows
     end.
Proof.
  induction rows as [|l rows IH]; cbn [read_rows records List.length].
  - now intros [= <- <- <-].
  - destruct (dict_get chrord (row_chr l)) as [c|].
    + intros [= <- <- <-]. split; [reflexivity|].
      exists (MetaDat_of_row c l). repeat split. lia.
    + intros H. destruct (IH H) as [-> Hres]. split; [reflexivity|].
      destruct res as [batch|]; [|assumption].
      destruct Hres as (v & -> & -> & Hlen). exists v. repeat split. lia.
Qed.

(** When every record still to assemble is at the site of the group in
    hand, the end of the file comes first and the loop returns [None]. *)
Lemma read_rows_last_group vars fut rows :
  match vars with
  | [] => one_site (records rows)
  | v0 :: _ => forallb (same_site v0) (records rows)
  end = true ->
  read_rows false vars fut rows = (None, (fut, [])).
Proof.
  revert vars; induction rows as [|l rows IH]; intros vars;
    cbn [read_rows records]; [reflexivity|].
  destruct (dict_get chrord (row_chr l)) as [c|]; [|apply IH].
  destruct vars as [|v0 vars]; cbn [one_site forallb app].
  - intros H. now apply (IH [_]).
  - intros H. apply andb_true_iff in H. destruct H as [-> H].
    now apply (IH (v0 :: _)).
Qed.

Lemma same_site_refl v : same_site v v = true.
Proof. unfold same_site. now rewrite !Z.eqb_refl. Qed.

Lemma same_site_sym a b : same_site a b = same_site b a.
Proof. unfold same_site. now rewrite (Z.eqb_sym (chr a)), (Z.eqb_sym (pos a)). Qed.

Lemma same_site_trans a b c :
  same_site a b = true -> same_site b c = same_site a c.
Proof.
  unfold same_site. rewrite andb_true_iff, !Z.eqb_eq.
  now intros [-> ->].
Qed.

Lemma one_site_In v0 l v :
  one_site (v0 :: l) = true -> In v (v0 :: l) -> same_site v0 v = true.
Proof.
  cbn [one_site]. rewrite forallb_forall.
  intros H [<-|Hin]; [apply same_site_refl|now apply H].
Qed.

Lemma one_site_snoc v0 l v :
  one_site (v0 :: l) = true -> same_site v0 v = true ->
  one_site ((v0 :: l) ++ [v]) = true.
Proof.
  cbn [one_site app]. intros H Hv.
  rewrite forallb_app, H. cbn. now rewrite Hv.
Qed.

(** The batch read from the file is at one site, and the record put aside
    is at another. *)
Lemma read_rows_one_site just_one vars fut rows batch fut' rows' :
  read_rows just_one vars fut rows = (Some batch, (fut', rows')) ->
  one_site vars = true ->
  one_site batch = true
  /\ ((just_one = true /\ fut' = fut)
      \/ exists l, fut' = fut ++ [l]
                   /\ forall v, In v batch -> same_site v l = false).
Proof.
  revert vars; induction rows as [|l rows IH]; intros vars;
    cbn [read_rows]; [discriminate|].
  destruct (dict_get chrord (row_chr l)) as [c|]; [|apply IH].
  destruct vars as [|v0 vars].
  - destruct just_one.
    + intros [= <- <- <-] _. split; [reflexivity|]. now left.
    + intros H _. now apply (IH _ H).
  - destruct (same_site v0 (MetaDat_of_row c l)) eqn:Hsite.
    + destruct just_one.
      * intros [= <- <- <-] Hvars. split; [now apply one_site_snoc|]. now left.
      * intros H Hvars. apply (IH _ H). now apply one_site_snoc.
    + intros [= <- <- <-] Hvars. split; [assumption|]. right.
      eexists. split; [reflexivity|].
      intros v Hv. pose proof (@one_site_In _ _ _ Hvars Hv) as H0.
      rewrite same_site_sym in H0.
      now rewrite <- (@same_site_trans _ _ (MetaDat_of_row c l) H0).
Qed.

End Reading.

(** X8.  Every record [get_next_data] makes of a line carries a chromosome
    code between 1 and 25: lines on any other contig are passed over. *)
Theorem get_next_data_codes just_one self batch self' :
  future self = [] ->
  get_next_data just_one self = (Some batch, self') ->
  forall v, In v (batch ++ future self') -> (1 <= chr v <= 25)%Z.
Proof.
  intros Hfut. unfold get_next_data. rewrite Hfut.
  destruct (read_rows just_one [] [] (fpoint self)) as (vars & fut' & rows') eqn:Hread.
  intros [= -> <-] v Hv. cbn [future with_stream] in Hv.
  destruct (read_rows_Some _ _ _ _ Hread) as (more & ahead & -> & -> & E & _).
  apply (records_codes (fpoint self)). rewrite E.
  cbn [app] in *. rewrite app_assoc. apply in_or_app. now left.
Qed.

Lemma get_next_data_codes_witness :
  future (study 10 30 [] three_lines) = []
  /\ get_next_data false (study 10 30 [] three_lines)
     = (Some [rec_AG; rec_AC], study 10 30 [rec_200] [])
  /\ forall v, In v ([rec_AG; rec_AC] ++ future (study 10 30 [rec_200] [])) ->
               (1 <= chr v <= 25)%Z.
Proof.
  do 2 (split; [reflexivity|]).
  apply (@get_next_data_codes false (study 10 30 [] three_lines)
                              [rec_AG; rec_AC] (study 10 30 [rec_200] []));
    reflexivity.
Defined.

(** X9.  With an empty deque, a call of [get_next_data] with [just_one]
    set that returns a batch returns the first unread record alone and puts
    nothing aside in the deque; a call that returns [None] had no record
    left to read.  Read one at a time, the records of a file all come out,
    in file order, the last ones included. *)
Theorem get_next_data_just_one self res self' :
  future self = [] ->
  get_next_data true self = (res, self') ->
  future self' = []
  /\ match res with
     | None => records (fpoint self) = [] /\ fpoint self' = []
     | Some batch =>
         exists v, batch = [v]
                   /\ records (fpoint self) = v :: records (fpoint self')
     end.
Proof.
  intros Hfut. unfold get_next_data. rewrite Hfut.
  destruct (read_rows true [] [] (fpoint self)) as (vars & fut' & rows') eqn:Hread.
  intros H. apply pair_equal_spec in H. destruct H as [-> <-].
  cbn [future fpoint with_stream].
  destruct (@read_rows_just_one _ _ _ _ _ Hread) as [-> Hres].
  split; [reflexivity|].
  destruct res as [batch|]; [|assumption].
  destruct Hres as (v & -> & -> & _). now exists v.
Qed.

Lemma get_next_data_just_one_witness :
  future (study 10 30 [] one_line) = []
  /\ get_next_data true (study 10 30 [] one_line)
     = (Some [rec_AG], study 10 30 [] [])
  /\ future (study 10 30 [] []) = []
  /\ exists v, [rec_AG] = [v]
               /\ records (fpoint (study 10 30 [] one_line))
                  = v :: records (fpoint (study 10 30 [] [])).
Proof.
  do 2 (split; [reflexivity|]).
  apply (@get_next_data_just_one (study 10 30 [] one_line) (Some [rec_AG])
                                 (study 10 30 [] [])); reflexivity.
Defined.

(** X10.  Without [just_one], [get_next_data] returns a group only once it
    has read a record of another site.  When the unread records are all at
    one site, the file ends first: the call returns [None], the group is
    not returned, and the file is exhausted. *)
Theorem get_next_data_last_group_lost self :
  future self = [] ->
  one_site (records (fpoint self)) = true ->
  get_next_data false self = (None, with_stream self [] []).
Proof.
  intros Hfut Hsite. unfold get_next_data. rewrite Hfut.
  now rewrite (read_rows_last_group [] [] (fpoint self) Hsite).
Qed.

Lemma get_next_data_last_group_lost_witness :
  future (study 10 30 [] one_line) = []
  /\ one_site (records (fpoint (study 10 30 [] one_line))) = true
  /\ records (fpoint (study 10 30 [] one_line)) = [rec_AG]
  /\ get_next_data false (study 10 30 [] one_line)
     = (None, with_stream (study 10 30 [] one_line) [] []).
Proof.
  do 3 (split; [reflexivity|]).
  apply (@get_next_data_last_group_lost (study 10 30 [] one_line)); reflexivity.
Defined.

(** X11.  Read from the file without [just_one], a batch is a group of
    records at one site, and exactly one record, of another site, is put
    aside in the deque. *)
Theorem get_next_data_group self batch self' :
  future self = [] ->
  get_next_data false self = (Some batch, self') ->
  one_site batch = true
  /\ batch <> []
  /\ exists l, future self' = [l]
               /\ forall v, In v batch -> same_site v l = false.
Proof.
  intros Hfut H.
  destruct (get_next_data_Some _ _ H) as (_ & Hne & _).
  revert H. unfold get_next_data. rewrite Hfut.
  destruct (read_rows false [] [] (fpoint self)) as (vars & fut' & rows') eqn:Hread.
  intros [= -> <-]. cbn [future with_stream].
  destruct (read_rows_one_site _ _ _ _ Hread eq_refl) as [Hsite [[Hjo _]|Hl]];
    [discriminate|].
  split; [assumption|]. split; assumption.
Qed.

Lemma get_next_data_group_witness :
  future (study 10 30 [] three_lines) = []
  /\ get_next_data false (study 10 30 [] three_lines)
     = (Some [rec_AG; rec_AC], study 10 30 [rec_200] [])
  /\ one_site [rec_AG; rec_AC] = true
  /\ [rec_AG; rec_AC] <> []
  /\ exists l, future (study 10 30 [rec_200] []) = [l]
               /\ forall v, In v [rec_AG; rec_AC] -> same_site v l = false.
Proof.
  do 2 (split; [reflexivity|]).
  apply (@get_next_data_group (study 10 30 [] three_lines)
                              [rec_AG; rec_AC] (study 10 30 [rec_200] []));
    reflexivity.
Defined.

(** ** The deque *)

Section Buffer.

Implicit Types (self : Study) (dat : MetaDat) (fut group batch : list MetaDat).

Lemma combine_seq_nth (A : Type) (l : list A) k i x :
  In (i, x) (combine (seq k (List.length l)) l) ->
  k <= i /\ nth_error l (i - k) = Some x.
Proof.
  revert k; induction l as [|a l IH]; intros k; cbn; [contradiction|].
  intros [[= <- <-]|H].
  - split; [lia|]. now rewrite Nat.sub_diag.
  - destruct (IH _ H) as [Hle Hnth]. split; [lia|].
    replace (i - k) with (S (i - S k)) by lia. exact Hnth.
Qed.

Lemma filter_all (A : Type) (P : A -> bool) (l : list A) :
  (forall x, In x l -> P x = true) -> filter P l = l.
Proof.
  induction l as [|a l IH]; cbn; [reflexivity|].
  intros H. rewrite (H a (or_introl eq_refl)), IH; [reflexivity|].
  intros x Hx. apply H. now right.
Qed.

Lemma filter_none (A : Type) (P : A -> bool) (l : list A) :
  (forall x, In x l -> P x = false) -> filter P l = [].
Proof.
  induction l as [|a l IH]; cbn; [reflexivity|].
  intros H. rewrite (H a (or_introl eq_refl)), IH; [reflexivity|].
  intros x Hx. apply H. now right.
Qed.

Lemma combine_seq_app (A : Type) (l1 l2 : list A) k :
  combine (seq k (List.length (l1 ++ l2))) (l1 ++ l2)
  = combine (seq k (List.length l1)) l1
    ++ combine (seq (k + List.length l1) (List.length l2)) l2.
Proof.
  revert k; induction l1 as [|a l1 IH]; intros k; cbn.
  - now rewrite Nat.add_0_r.
  - now rewrite IH, Nat.add_succ_r.
Qed.

Lemma enumerate_app (A : Type) (l1 l2 : list A) :
  enumerate (l1 ++ l2)
  = enumerate l1 ++ combine (seq (List.length l1) (List.length l2)) l2.
Proof.
  unfold enumerate. apply (combine_seq_app l1 l2 0).
Qed.

Lemma one_site_pairs group u v :
  one_site group = true -> In u group -> In v group -> same_site u v = true.
Proof.
  destruct group as [|v0 group]; [contradiction|].
  intros H Hu Hv.
  pose proof (@one_site_In _ _ _ H Hu) as Eu.
  pose proof (@one_site_In _ _ _ H Hv) as Ev.
  rewrite same_site_sym in Eu.
  now rewrite <- (@same_site_trans _ _ v Eu).
Qed.

Lemma pairs_one_site group :
  (forall u v, In u group -> In v group -> same_site u v = true) ->
  one_site group = true.
Proof.
  destruct group as [|v0 group]; [reflexivity|].
  intros H. cbn [one_site]. apply forallb_forall.
  intros v Hv. apply H; [now left|now right].
Qed.

(** On a deque that starts with a group of one site, the comprehension of
    the buffered branch selects the group, and the deletions leave what
    follows it. *)
Lemma buffered_group v0 group ahead :
  one_site (v0 :: group) = true ->
  ahead_ok (v0 :: group) ahead ->
  map snd (buffered ((v0 :: group) ++ ahead)) = v0 :: group
  /\ del_all (buffered ((v0 :: group) ++ ahead)) ((v0 :: group) ++ ahead) = ahead.
Proof.
  intros Hsite Hahead.
  set (fut := (v0 :: group) ++ ahead).
  set (P := fun iv : nat * MetaDat =>
              let (i, v) := iv in
              (i =? 0)%nat
              || match nth_error fut (i - 1) with
                 | Some p => same_site v p
                 | None => false
                 end).
  assert (Hin : filter P (enumerate (v0 :: group)) = enumerate (v0 :: group)).
  { apply filter_all. intros [i x] Hix.
    destruct (combine_seq_nth _ _ _ _ Hix) as [_ Hnth].
    rewrite Nat.sub_0_r in Hnth. unfold P.
    destruct i as [|i]; [reflexivity|]. cbn [Nat.eqb orb].
    replace (S i - 1) with i by lia.
    assert (Hlt : i < List.length (v0 :: group)).
    { apply Nat.lt_succ_l. apply nth_error_Some. now rewrite Hnth. }
    unfold fut. rewrite nth_error_app1 by assumption.
    destruct (nth_error (v0 :: group) i) as [p|] eqn:Hp.
    - apply (one_site_pairs (v0 :: group)); [assumption| |].
      + eapply nth_error_In; eassumption.
      + eapply nth_error_In; eassumption.
    - apply nth_error_None in Hp. lia. }
  assert (Hout : filter P (combine (seq (List.length (v0 :: group))
                                        (List.length ahead)) ahead) = []).
  { destruct Hahead as [->|(l & -> & Hl)]; [reflexivity|].
    cbn [List.length seq combine filter]. unfold P at 1.
    cbn [Nat.eqb orb].
    replace (S (List.length group) - 1) with (List.length group) by lia.
    unfold fut. rewrite nth_error_app1 by (cbn; lia).
    destruct (nth_error (v0 :: group) (List.length group)) as [p|] eqn:Hp.
    - rewrite same_site_sym, (Hl p); [reflexivity|].
      eapply nth_error_In; eassumption.
    - reflexivity. }
  assert (Hsel : buffered fut = enumerate (v0 :: group)).
  { unfold buffered. fold P. unfold fut at 1.
    now rewrite enumerate_app, filter_app, Hin, Hout, app_nil_r. }
  split.
  - rewrite Hsel. apply (map_snd_enumerate_from 0).
  - rewrite del_all_fold.
    unfold buffered. fold P. unfold enumerate.
    pose proof (del_selected P [] fut) as Hdel.
    cbn [app List.length] in Hdel. rewrite Hdel.
    change (combine (seq 0 (List.length fut)) fut) with (enumerate fut).
    unfold fut at 1. rewrite enumerate_app, filter_app, map_app.
    rewrite (filter_none _ (enumerate (v0 :: group))).
    + cbn [map app].
      rewrite filter_all; [apply map_snd_enumerate_from|].
      intros x Hx.
      assert (Hx' : In x (filter P (combine (seq (List.length (v0 :: group))
                                                 (List.length ahead)) ahead)) -> False)
        by (rewrite Hout; contradiction).
      destruct (P x) eqn:HP; [|reflexivity].
      exfalso. apply Hx'. apply filter_In. now split.
    + intros x Hx.
      assert (HP : In x (filter P (enumerate (v0 :: group))))
        by (rewrite Hin; assumption).
      apply filter_In in HP. destruct HP as [_ ->]. reflexivity.
Qed.

End Buffer.

Section Invariant.

Implicit Types (self : Study) (dat : MetaDat) (fut group batch : list MetaDat).

Lemma buffer_ok_ahead batch fut : ahead_ok batch fut -> buffer_ok fut.
Proof.
  intros H. exists [], fut. split; [reflexivity|]. split; [reflexivity|].
  destruct H as [->|(l & -> & _)]; [now left|].
  right. exists l. split; [reflexivity|]. intros v [].
Qed.

(** A batch, whatever its source, is at one site and leaves the deque
    with at most one record, of another site. *)
Lemma get_next_data_keeps just_one self batch self' :
  buffer_ok (future self) ->
  get_next_data just_one self = (Some batch, self') ->
  one_site batch = true /\ ahead_ok batch (future self').
Proof.
  intros (group & ahead & Hfut & Hsite & Hahead).
  unfold get_next_data.
  destruct (future self) as [|v0 fut] eqn:Hself.
  - destruct (read_rows just_one [] [] (fpoint self))
      as (vars & fut' & rows') eqn:Hread.
    intros [= -> <-]. cbn [future with_stream].
    destruct (@read_rows_one_site _ _ _ _ _ _ _ Hread eq_refl) as [Hb [[_ ->]|Hl]].
    + split; [assumption|now left].
    + split; [assumption|now right].
  - intros H. apply pair_equal_spec in H. destruct H as [Hb Hs].
    apply (f_equal (fun o => match o with Some b => b | None => [] end)) in Hb.
    subst batch self'. cbn [future with_stream].
    destruct group as [|g0 group].
    + cbn [app] in Hfut. destruct Hahead as [->|(l & -> & _)]; [discriminate|].
      injection Hfut as -> ->.
      destruct (@buffered_group l [] [] eq_refl (or_introl eq_refl)) as [E1 E2].
      cbn [app] in E1, E2. rewrite E1, E2.
      split; [reflexivity|now left].
    + rewrite Hfut.
      destruct (@buffered_group _ _ _ Hsite Hahead) as [-> ->].
      split; assumption.
Qed.

Lemma get_next_data_None_future just_one self self' :
  get_next_data just_one self = (None, self') -> future self' = [].
Proof.
  unfold get_next_data.
  destruct (future self) as [|v fut]; [|discriminate].
  destruct (read_rows just_one [] [] (fpoint self)) as (vars & fut' & rows') eqn:Hread.
  intros [= -> <-]; cbn [future with_stream].
  now destruct (@read_rows_None _ _ _ _ _ _ Hread).
Qed.

(** Pushing back records of the batch keeps the shape. *)
Lemma put_back_keeps batch kept self :
  one_site batch = true ->
  ahead_ok batch (future self) ->
  (forall v, In v kept -> In v batch) ->
  buffer_ok (future (put_back kept self)).
Proof.
  intros Hsite Hahead Hsub. rewrite put_back_future.
  exists (rev kept), (future self). split; [reflexivity|]. split.
  - apply pairs_one_site. intros u v Hu Hv.
    apply (one_site_pairs batch); [assumption| |];
      apply Hsub; now apply in_rev.
  - destruct Hahead as [->|(l & -> & Hl)]; [now left|].
    right. exists l. split; [reflexivity|].
    intros v Hv. apply Hl, Hsub. now apply in_rev.
Qed.

Lemma before_same_site u v dat :
  same_site u v = true -> before v dat = before u dat.
Proof.
  unfold same_site, before. rewrite andb_true_iff, !Z.eqb_eq.
  now intros [-> ->].
Qed.

(** The [while] on a deque of the right shape: every record it drops
    sorts strictly before the target. *)
Lemma skip_before_keeps fuel dat batch self otherdats self' :
  skip_before fuel dat (Some batch) self = Ok (otherdats, self') ->
  one_site batch = true ->
  ahead_ok batch (future self) ->
  match otherdats with
  | None => fpoint self' = [] /\ future self' = []
  | Some batch' =>
      one_site batch' = true
      /\ ahead_ok batch' (future self')
      /\ exists dropped,
          Forall (fun v => before v dat = true) dropped
          /\ Permutation (batch ++ pending self)
                         (dropped ++ batch' ++ pending self')
  end.
Proof.
  revert batch self; induction fuel as [|fuel IH]; intros batch self;
    cbn [skip_before]; destruct batch as [|o rest]; try discriminate;
    destruct (before o dat) eqn:Hbefore; try discriminate;
    try (intros [= <- <-] Hsite Hahead; split; [assumption|];
         split; [assumption|]; exists []; split; [constructor|reflexivity]).
  destruct (get_next_data false self) as [[next|] self1] eqn:Hnext.
  - intros H Hsite Hahead.
    destruct (@get_next_data_keeps _ _ _ _ (@buffer_ok_ahead _ _ Hahead) Hnext)
      as [Hsite1 Hahead1].
    specialize (IH _ _ H Hsite1 Hahead1).
    destruct (@get_next_data_Some _ _ _ _ Hnext) as (Hperm & _ & _).
    destruct otherdats as [batch'|]; [|assumption].
    destruct IH as (Hsite' & Hahead' & dropped & Hdropped & Hacc).
    split; [assumption|]. split; [assumption|].
    exists ((o :: rest) ++ dropped). split.
    + apply Forall_app. split; [|assumption].
      apply Forall_forall. intros v Hv.
      rewrite (@before_same_site o v dat); [assumption|].
      now apply (@one_site_In _ _ _ Hsite).
    + rewrite <- app_assoc. apply Permutation_app_head.
      now rewrite Hperm.
  - cbn. destruct fuel; intros [= <- <-] _ _;
      (split; [apply (@get_next_data_None _ _ _ Hnext)
              |apply (@get_next_data_None_future _ _ _ Hnext)]).
Qed.

Lemma scan_keeps dat seen todo found remaining :
  scan dat seen todo = Ok (found, remaining) ->
  forall v, In v remaining -> In v (seen ++ todo).
Proof.
  intros H v Hv.
  destruct (@scan_accounts _ _ _ _ _ H) as (taken & _ & Hperm).
  apply (Permutation_in _ (Permutation_sym Hperm)).
  apply in_or_app. now right.
Qed.

End Invariant.

Section Matching.

Implicit Types (self : Study) (dat : MetaDat).

Lemma buffer_ok_nil : buffer_ok [].
Proof.
  exists [], []. split; [reflexivity|]. split; [reflexivity|now left].
Qed.

(** One call of [get_match] on a deque of the right shape. *)
Lemma get_match_keeps dat self found self' :
  buffer_ok (future self) ->
  get_match dat self = Ok (found, self') ->
  buffer_ok (future self')
  /\ (fpoint self' <> [] ->
      exists dropped taken,
        Forall (fun v => before v dat = true) dropped
        /\ taken_by dat found taken
        /\ Permutation (pending self) (dropped ++ taken ++ pending self')).
Proof.
  intros Hok. unfold get_match.
  destruct (get_next_data false self) as [[batch|] self1] eqn:Hfirst.
  2:{ intros [= <- <-]. split.
      - rewrite (@get_next_data_None_future _ _ _ Hfirst). apply buffer_ok_nil.
      - intros Hrows. now destruct Hrows; apply (@get_next_data_None _ _ _ Hfirst). }
  destruct (@get_next_data_keeps _ _ _ _ Hok Hfirst) as [Hsite1 Hahead1].
  destruct (@get_next_data_Some _ _ _ _ Hfirst) as (Hperm1 & Hne & _).
  destruct batch as [|o rest]; [congruence|].
  destruct (skip_before _ dat (Some (o :: rest)) self1)
    as [[[[|o2 rest2]|] self2]| |] eqn:Hskip; cbn [bind]; try discriminate.
  - destruct (@skip_before_keeps _ _ _ _ _ _ Hskip Hsite1 Hahead1)
      as (Hsite2 & Hahead2 & dropped & Hdropped & Hperm2).
    destruct (beyond o2 dat).
    + intros [= <- <-]. split.
      * apply (@put_back_keeps (o2 :: rest2)); auto.
      * intros _. exists dropped, []. split; [assumption|].
        split; [reflexivity|].
        rewrite Hperm1, Hperm2. cbn [app].
        apply Permutation_app_head. symmetry. apply pending_put_back.
    + destruct (scan dat [] (o2 :: rest2)) as [[found' remaining]| |] eqn:Hscan;
        cbn [bind]; try discriminate.
      intros [= <- <-]. split.
      * apply (@put_back_keeps (o2 :: rest2)); auto.
        exact (@scan_keeps _ _ _ _ _ Hscan).
      * intros _.
        destruct (@scan_accounts _ _ _ _ _ Hscan) as (taken & Htaken & Hperm3).
        exists dropped, taken. split; [assumption|]. split; [assumption|].
        rewrite Hperm1, Hperm2. apply Permutation_app_head.
        cbn [app] in Hperm3. rewrite Hperm3, <- app_assoc.
        apply Permutation_app_head. symmetry. apply pending_put_back.
  - intros [= <- <-].
    destruct (@skip_before_keeps _ _ _ _ _ _ Hskip Hsite1 Hahead1) as [Hrows Hfut].
    split; [rewrite Hfut; apply buffer_ok_nil|].
    intros Hne'. now destruct Hne'.
Qed.

Lemma skip_before_suffix fuel dat otherdats self result self' :
  skip_before fuel dat otherdats self = Ok (result, self') ->
  exists consumed, fpoint self = consumed ++ fpoint self'.
Proof.
  revert otherdats self; induction fuel as [|fuel IH]; intros otherdats self;
    cbn [skip_before]; destruct otherdats as [[|o rest]|]; try discriminate;
    try (intros [= <- <-]; now exists []);
    destruct (before o dat); try discriminate;
    try (intros [= <- <-]; now exists []).
  destruct (get_next_data false self) as [next self1] eqn:Hnext.
  intros H.
  destruct (@get_next_data_suffix _ _ _ _ Hnext) as (c1 & ->).
  destruct (IH _ _ H) as (c2 & ->).
  exists (c1 ++ c2). now rewrite app_assoc.
Qed.

Lemma equalize_True_site v dat m :
  equalize v dat = Ok (Some true, m) -> same_site m dat = true.
Proof.
  intros H.
  destruct (@equalize_Ok_inv _ _ _ _ H) as (_ & Hc & Hp & Hsite).
  specialize (Hsite eq_refl). unfold same_site in *.
  now rewrite Hc, Hp.
Qed.

End Matching.

(** X12.  The deque of a study keeps one shape through [get_match]:
    records of one site, then at most one record, of another site.  An
    empty deque has the shape, so every study read through [get_match]
    alone has it at all times. *)
Theorem get_match_keeps_buffer_shape dat self found self' :
  buffer_ok (future self) ->
  get_match dat self = Ok (found, self') ->
  buffer_ok (future self').
Proof.
  intros Hok H. now destruct (@get_match_keeps _ _ _ _ Hok H).
Qed.

Lemma get_match_keeps_buffer_shape_witness :
  buffer_ok (future (study 10 30 [] three_lines))
  /\ get_match rec_AT (study 10 30 [] three_lines)
     = Ok (None, study 10 30 [rec_AC; rec_AG; rec_200] [])
  /\ buffer_ok (future (study 10 30 [rec_AC; rec_AG; rec_200] [])).
Proof.
  split; [apply buffer_ok_nil|]. split; [reflexivity|].
  apply (@get_match_keeps_buffer_shape
           rec_AT (study 10 30 [] three_lines) None
           (study 10 30 [rec_AC; rec_AG; rec_200] []));
    [apply buffer_ok_nil|reflexivity].
Defined.

(** X13.  On a deque of that shape, every batch [get_next_data] returns,
    from the deque or from the file, is at one site, and behind it the
    deque holds nothing or one record of another site. *)
Theorem get_next_data_batch_one_site just_one self batch self' :
  buffer_ok (future self) ->
  get_next_data just_one self = (Some batch, self') ->
  one_site batch = true /\ ahead_ok batch (future self').
Proof.
  apply get_next_data_keeps.
Qed.

Lemma get_next_data_batch_one_site_witness :
  buffer_ok (future (study 10 30 [rec_AC; rec_AG; rec_200] []))
  /\ get_next_data false (study 10 30 [rec_AC; rec_AG; rec_200] [])
     = (Some [rec_AC; rec_AG], study 10 30 [rec_200] [])
  /\ one_site [rec_AC; rec_AG] = true
  /\ ahead_ok [rec_AC; rec_AG] (future (study 10 30 [rec_200] [])).
Proof.
  assert (Hok : buffer_ok (future (study 10 30 [rec_AC; rec_AG; rec_200] []))).
  { exists [rec_AC; rec_AG], [rec_200].
    split; [reflexivity|]. split; [reflexivity|].
    right. exists rec_200. split; [reflexivity|].
    intros v [<-|[<-|[]]]; reflexivity. }
  split; [exact Hok|]. split; [reflexivity|].
  apply (@get_next_data_batch_one_site
           false (study 10 30 [rec_AC; rec_AG; rec_200] [])
           [rec_AC; rec_AG] (study 10 30 [rec_200] []));
    [exact Hok|reflexivity].
Defined.

(** X14.  On a deque of that shape, a call of [get_match] that leaves
    lines unread loses only records that sort strictly before its target:
    every record the study held is the record returned, or is still held,
    or is one of those. *)
Theorem get_match_drops_only_earlier dat self found self' :
  buffer_ok (future self) ->
  get_match dat self = Ok (found, self') ->
  fpoint self' <> [] ->
  exists dropped taken,
    Forall (fun v => before v dat = true) dropped
    /\ taken_by dat found taken
    /\ Permutation (pending self) (dropped ++ taken ++ pending self').
Proof.
  intros Hok H. now destruct (@get_match_keeps _ _ _ _ Hok H).
Qed.

Lemma get_match_drops_only_earlier_witness :
  buffer_ok (future (study 10 30 [] three_sites))
  /\ get_match target_200 (study 10 30 [] three_sites)
     = Ok (Some target_200,
           study 10 30 [] [line "1" 300 "C" "T" (Some 0.5%float)])
  /\ fpoint (study 10 30 [] [line "1" 300 "C" "T" (Some 0.5%float)]) <> []
  /\ exists dropped taken,
      Forall (fun v => before v target_200 = true) dropped
      /\ taken_by target_200 (Some target_200) taken
      /\ Permutation
           (pending (study 10 30 [] three_sites))
           (dropped ++ taken
            ++ pending (study 10 30 [] [line "1" 300 "C" "T" (Some 0.5%float)])).
Proof.
  split; [apply buffer_ok_nil|]. split; [reflexivity|]. split; [discriminate|].
  apply (@get_match_drops_only_earlier
           target_200 (study 10 30 [] three_sites) (Some target_200)
           (study 10 30 [] [line "1" 300 "C" "T" (Some 0.5%float)]));
    [apply buffer_ok_nil|reflexivity|discriminate].
Defined.

(** X15.  [get_match] only reads forward: the lines unread after a call
    are a suffix of the lines unread before it. *)
Theorem get_match_reads_forward dat self found self' :
  get_match dat self = Ok (found, self') ->
  exists consumed, fpoint self = consumed ++ fpoint self'.
Proof.
  unfold get_match.
  destruct (get_next_data false self) as [otherdats self1] eqn:Hfirst.
  destruct (@get_next_data_suffix _ _ _ _ Hfirst) as (c1 & E1).
  destruct otherdats as [[|o rest]|];
    try (intros [= <- <-]; now exists c1).
  destruct (skip_before _ dat (Some (o :: rest)) self1)
    as [[[[|o2 rest2]|] self2]| |] eqn:Hskip; cbn [bind]; try discriminate;
    destruct (@skip_before_suffix _ _ _ _ _ _ Hskip) as (c2 & E2);
    assert (E : fpoint self = (c1 ++ c2) ++ fpoint self2)
      by (now rewrite E1, E2, app_assoc).
  - destruct (beyond o2 dat); [intros [= <- <-]; now exists (c1 ++ c2)|].
    destruct (scan dat [] (o2 :: rest2)) as [[found' remaining]| |];
      cbn [bind]; try discriminate.
    intros [= <- <-]. now exists (c1 ++ c2).
  - intros [= <- <-]. now exists (c1 ++ c2).
Qed.

Lemma get_match_reads_forward_witness :
  get_match target_200 (study 10 30 [] three_sites)
  = Ok (Some target_200,
        study 10 30 [] [line "1" 300 "C" "T" (Some 0.5%float)])
  /\ exists consumed,
      fpoint (study 10 30 [] three_sites)
      = consumed
        ++ fpoint (study 10 30 [] [line "1" 300 "C" "T" (Some 0.5%float)]).
Proof.
  split; [reflexivity|].
  apply (@get_match_reads_forward
           target_200 (study 10 30 [] three_sites) (Some target_200)
           (study 10 30 [] [line "1" 300 "C" "T" (Some 0.5%float)])).
  reflexivity.
Defined.

(** X16.  The record [get_match] returns is a record the study held, at
    the site of the target, as [equalize] left it after returning
    [True]. *)
Theorem get_match_result_from_stream dat self m self' :
  get_match dat self = Ok (Some m, self') ->
  same_site m dat = true
  /\ exists v, In v (pending self) /\ equalize v dat = Ok (Some true, m).
Proof.
  unfold get_match.
  destruct (get_next_data false self) as [[batch|] self1] eqn:Hfirst;
    [|discriminate].
  destruct (@get_next_data_Some _ _ _ _ Hfirst) as (Hperm1 & _ & _).
  destruct batch as [|o rest]; [discriminate|].
  destruct (skip_before _ dat (Some (o :: rest)) self1)
    as [[[[|o2 rest2]|] self2]| |] eqn:Hskip; cbn [bind]; try discriminate.
  destruct (@skip_before_accounts _ _ _ _ _ _ Hskip) as (dropped & _ & Hperm2).
  destruct (beyond o2 dat); [discriminate|].
  destruct (scan dat [] (o2 :: rest2)) as [[found' remaining]| |] eqn:Hscan;
    cbn [bind]; try discriminate.
  intros [= -> <-].
  destruct (@scan_accounts _ _ _ _ _ Hscan) as (taken & (v & -> & Heq) & Hperm3).
  split; [exact (@equalize_True_site _ _ _ Heq)|].
  exists v. split; [|assumption].
  apply (Permutation_in _ (Permutation_sym Hperm1)).
  apply (Permutation_in _ (Permutation_sym Hperm2)).
  apply in_or_app; right. apply in_or_app; left.
  apply (Permutation_in _ (Permutation_sym Hperm3)). now left.
Qed.

Lemma get_match_result_from_stream_witness :
  get_match target_200 (study 10 30 [] three_sites)
  = Ok (Some target_200,
        study 10 30 [] [line "1" 300 "C" "T" (Some 0.5%float)])
  /\ same_site target_200 target_200 = true
  /\ exists v, In v (pending (study 10 30 [] three_sites))
               /\ equalize v target_200 = Ok (Some true, target_200).
Proof.
  split; [reflexivity|].
  apply (@get_match_result_from_stream
           target_200 (study 10 30 [] three_sites) target_200
           (study 10 30 [] [line "1" 300 "C" "T" (Some 0.5%float)])).
  reflexivity.
Defined.

(** ** The combiners, further *)

Section CombinersFurther.

Variable norm_sf : float -> float.
Variable chi2_isf : float -> float.

Implicit Types (studies : list (Study * MetaDat)).

(** Over usable pairs the loop of [inv_var_meta] appends one term each. *)
Lemma inv_var_loop_usable pre :
  forallb inv_var_usable pre = true ->
  forall effs tot,
  exists terms tot',
    List.length terms = List.length pre
    /\ forall rest,
        inv_var_loop (pre ++ rest) effs tot
        = inv_var_loop rest (effs ++ terms) tot'.
Proof.
  induction pre as [|[st d] pre IH]; intros Hpre effs tot.
  - exists [], tot. split; [reflexivity|]. intros rest. now rewrite app_nil_r.
  - cbn [forallb] in Hpre. apply andb_true_iff in Hpre. destruct Hpre as [Hd Hpre].
    unfold inv_var_usable in Hd. cbn [snd] in Hd.
    destruct (se d) as [s|] eqn:Hse; [|discriminate].
    destruct (beta d) as [b|] eqn:Hb; [|discriminate].
    apply andb_true_iff in Hd. destruct Hd as [Hs Hvar].
    apply negb_true_iff in Hs, Hvar.
    destruct (IH Hpre (effs ++ [(s * s * b)%float]) (tot + 1 / (s * s))%float)
      as (terms & tot' & Hlen & Hloop).
    exists ((s * s * b)%float :: terms), tot'. split; [cbn; now rewrite Hlen|].
    intros rest. cbn [app inv_var_loop]. unfold float_truediv.
    rewrite Hse, Hs, Hvar, Hb. cbn [bind].
    now rewrite Hloop, <- app_assoc.
Qed.

(** The lists the loops build never have more terms than pairs gone
    through, and have as many only if no pair made the loop [break]. *)
Lemma inv_var_loop_length studies effs tot effs' tot' :
  inv_var_loop studies effs tot = Ok (effs', tot') ->
  List.length effs' <= List.length effs + List.length studies
  /\ (List.length effs' = List.length effs + List.length studies ->
      forall pair, In pair studies ->
                   exists s, se (snd pair) = Some s /\ PrimFloat.eqb s 0 = false).
Proof.
  revert effs tot; induction studies as [|[st d] studies IH]; intros effs tot;
    cbn [inv_var_loop List.length].
  - intros [= <- <-]. split; [lia|]. intros _ pair [].
  - destruct (se d) as [s|] eqn:Hse;
      [|intros [= <- <-]; split; [lia|intros H; lia]].
    destruct (PrimFloat.eqb s 0) eqn:Hs;
      [intros [= <- <-]; split; [lia|intros H; lia]|].
    destruct (float_truediv 1 (s * s)) as [inv| |]; cbn [bind]; try discriminate.
    destruct (beta d) as [b|]; [|discriminate].
    intros H. destruct (IH _ _ H) as [Hle Hall].
    rewrite length_app in Hle, Hall. cbn [List.length] in Hle, Hall.
    split; [lia|].
    intros Hlen pair [<-|Hin].
    + exists s. now split.
    + apply Hall; [lia|assumption].
Qed.

Lemma variance_weight_loop_length studies effs tot effs' tot' :
  variance_weight_loop chi2_isf studies effs tot = Ok (effs', tot') ->
  List.length effs' <= List.length effs + List.length studies
  /\ (List.length effs' = List.length effs + List.length studies ->
      forall pair, In pair studies ->
                   exists s, se (snd pair) = Some s /\ PrimFloat.eqb s 0 = false).
Proof.
  revert effs tot; induction studies as [|[st d] studies IH]; intros effs tot;
    cbn [variance_weight_loop List.length].
  - intros [= <- <-]. split; [lia|]. intros _ pair [].
  - destruct (se d) as [s|] eqn:Hse;
      [|intros [= <- <-]; split; [lia|intros H; lia]].
    destruct (PrimFloat.eqb s 0) eqn:Hs;
      [intros [= <- <-]; split; [lia|intros H; lia]|].
    destruct (float_truediv 1 s) as [w| |]; cbn [bind]; try discriminate.
    destruct (numpy_sign (beta d)) as [sgn| |]; cbn [bind]; try discriminate.
    destruct (z_score chi2_isf d) as [[z d']| |]; cbn [bind]; try discriminate.
    destruct (float_truediv 1 (s * s)) as [inv| |]; cbn [bind]; try discriminate.
    intros H. destruct (IH _ _ H) as [Hle Hall].
    rewrite length_app in Hle, Hall. cbn [List.length] in Hle, Hall.
    split; [lia|].
    intros Hlen pair [<-|Hin].
    + exists s. now split.
    + apply Hall; [lia|assumption].
Qed.

(** X17.  [inv_var_meta] returns [None], and does not raise, when a pair
    has a standard error that is [None] or zero and every pair before it
    has an effect and a standard error whose square is not zero; the pairs
    after it are not looked at. *)
Theorem inv_var_meta_unavailable pre st d post :
  forallb inv_var_usable pre = true ->
  match se d with
  | None => true
  | Some s => PrimFloat.eqb s 0
  end = true ->
  inv_var_meta norm_sf (pre ++ (st, d) :: post) = Ok None.
Proof.
  intros Hpre Hd. unfold inv_var_meta.
  destruct (inv_var_loop_usable pre Hpre [] 0%float) as (terms & tot' & Hlen & ->).
  cbn [app].
  assert (E : inv_var_loop ((st, d) :: post) terms tot' = Ok (terms, tot')).
  { cbn [inv_var_loop]. destruct (se d) as [s|]; [|reflexivity]. now rewrite Hd. }
  rewrite E. cbn [bind].
  replace (List.length terms =? List.length (pre ++ (st, d) :: post))%nat
    with false; [reflexivity|].
  symmetry. apply Nat.eqb_neq. rewrite length_app. cbn [List.length]. lia.
Qed.

(** X18.  [inv_var_meta] and [variance_weight_meta] return a p-value only
    when every pair has a standard error that is neither [None] nor
    zero. *)
Theorem variance_methods_need_every_se studies p :
  inv_var_meta norm_sf studies = Ok (Some p)
  \/ variance_weight_meta norm_sf chi2_isf studies = Ok (Some p) ->
  forall pair, In pair studies ->
               exists s, se (snd pair) = Some s /\ PrimFloat.eqb s 0 = false.
Proof.
  intros [H|H].
  - unfold inv_var_meta in H.
    destruct (inv_var_loop studies [] 0%float) as [[effs tot]| |] eqn:Hloop;
      cbn [bind] in H; try discriminate.
    destruct (List.length effs =? List.length studies)%nat eqn:Hlen;
      [|discriminate].
    apply Nat.eqb_eq in Hlen.
    now apply (proj2 (inv_var_loop_length _ _ _ Hloop)).
  - unfold variance_weight_meta in H.
    destruct (variance_weight_loop chi2_isf studies [] 0%float)
      as [[effs tot]| |] eqn:Hloop; cbn [bind] in H; try discriminate.
    destruct (List.length effs =? List.length studies)%nat eqn:Hlen;
      [|discriminate].
    apply Nat.eqb_eq in Hlen.
    now apply (proj2 (variance_weight_loop_length _ _ _ Hloop)).
Qed.

(** X19.  [n_meta] has no unavailable result: when it returns, it returns
    a p-value. *)
Theorem n_meta_never_unavailable studies r :
  n_meta norm_sf chi2_isf studies = Ok r -> exists p, r = Some p.
Proof.
  unfold n_meta.
  destruct (n_meta_loop chi2_isf studies [] 0%float) as [[effs tot]| |];
    cbn [bind]; try discriminate.
  destruct (weighted_z effs tot) as [z| |]; cbn [bind]; try discriminate.
  intros [= <-]. now eexists.
Qed.

(** X20.  On an empty list of pairs each of the three combiners divides
    by the square root of a zero total and raises [ZeroDivisionError]. *)
Theorem combiners_empty_list :
  n_meta norm_sf chi2_isf [] = Raise ZeroDivisionError
  /\ inv_var_meta norm_sf [] = Raise ZeroDivisionError
  /\ variance_weight_meta norm_sf chi2_isf [] = Raise ZeroDivisionError.
Proof.
  repeat split.
Qed.

(** X21.  [z_score] computes once: after a call that returns, the value is
    in [z_scr] and a second call returns it again and changes nothing. *)
Theorem z_score_cached self z self' :
  z_score chi2_isf self = Ok (z, self') ->
  z_scr self' = Some z
  /\ z_score chi2_isf self' = Ok (z, self').
Proof.
  unfold z_score.
  destruct (z_scr self) as [z0|] eqn:Hz.
  - intros [= <- <-]. now rewrite Hz.
  - destruct (pval self) as [p|]; [|discriminate].
    destruct (math_sqrt (chi2_isf p)) as [z0| |]; cbn [bind]; try discriminate.
    intros [= <- <-]. split; reflexivity.
Qed.

End CombinersFurther.

Lemma inv_var_meta_unavailable_witness :
  forallb inv_var_usable [(study 10 30 [] [], rec_unit)] = true
  /\ match se rec_no_se with
     | None => true
     | Some s => PrimFloat.eqb s 0
     end = true
  /\ inv_var_meta (fun x => x)
                  ([(study 10 30 [] [], rec_unit)]
                   ++ (study 20 20 [] [], rec_no_se)
                   :: [(study 20 20 [] [], rec_unparsed)])
     = Ok None.
Proof.
  do 2 (split; [reflexivity|]).
  apply (@inv_var_meta_unavailable
           (fun x => x) [(study 10 30 [] [], rec_unit)]
           (study 20 20 [] []) rec_no_se
           [(study 20 20 [] [], rec_unparsed)]); reflexivity.
Defined.

Lemma variance_methods_need_every_se_witness :
  (inv_var_meta (fun x => x) [(study 10 30 [] [], rec_unit)] = Ok (Some 8%float)
   \/ variance_weight_meta (fun x => x) (fun x => x)
                           [(study 10 30 [] [], rec_unit)] = Ok (Some 8%float))
  /\ forall pair, In pair [(study 10 30 [] [], rec_unit)] ->
                  exists s, se (snd pair) = Some s /\ PrimFloat.eqb s 0 = false.
Proof.
  split; [left; reflexivity|].
  apply (@variance_methods_need_every_se
           (fun x => x) (fun x => x) [(study 10 30 [] [], rec_unit)] 8%float).
  left. reflexivity.
Defined.

Lemma n_meta_never_unavailable_witness :
  n_meta (fun x => x) (fun x => 4%float) [(study 10 30 [] [], rec_unit)]
  = Ok (Some 2%float)
  /\ exists p, Some 2%float = Some p.
Proof.
  split; [reflexivity|].
  apply (@n_meta_never_unavailable
           (fun x => x) (fun x => 4%float) [(study 10 30 [] [], rec_unit)]).
  reflexivity.
Defined.

Lemma z_score_cached_witness :
  exists self',
    z_score (fun x => 4%float) rec_unit = Ok (2%float, self')
    /\ z_scr self' = Some 2%float
    /\ z_score (fun x => 4%float) self' = Ok (2%float, self').
Proof.
  eexists. split; [reflexivity|].
  apply (@z_score_cached (fun x => 4%float) rec_unit). reflexivity.
Defined.

(** ** The study, further *)

(** X22.  [effective_size] computes once: after a call that returns, the
    value is in [eff_size], a second call returns it again and changes
    nothing, and the stream of the study is as it was. *)
Theorem effective_size_cached self e self' :
  effective_size self = Ok (e, self') ->
  eff_size self' = Some e
  /\ effective_size self' = Ok (e, self')
  /\ future self' = future self
  /\ fpoint self' = fpoint self.
Proof.
  unfold effective_size.
  destruct (eff_size self) as [e0|] eqn:He.
  - intros [= <- <-]. now rewrite He.
  - destruct (int_truediv _ _) as [e0| |]; cbn [bind]; try discriminate.
    intros [= <- <-]. repeat split.
Qed.

Lemma effective_size_cached_witness :
  exists self',
    effective_size (study 10 30 [] three_lines) = Ok (20%float, self')
    /\ eff_size self' = Some 20%float
    /\ effective_size self' = Ok (20%float, self')
    /\ future self' = future (study 10 30 [] three_lines)
    /\ fpoint self' = fpoint (study 10 30 [] three_lines).
Proof.
  eexists. split; [vm_compute; reflexivity|].
  apply (@effective_size_cached (study 10 30 [] three_lines) 20%float).
  vm_compute. reflexivity.
Defined.

(** X23.  [effective_size] raises [ZeroDivisionError] exactly when nothing
    is cached and the study is configured with zero cases, whatever its
    number of controls. *)
Theorem effective_size_zero_cases self :
  effective_size self = Raise ZeroDivisionError
  <-> eff_size self = None /\ conf_n_cases self = 0%Z.
Proof.
  unfold effective_size, n_controls, n_cases, int_truediv.
  destruct (eff_size self) as [e0|].
  - split; [discriminate|]. intros [H _]. discriminate.
  - destruct (conf_n_cases self + conf_n_cases self =? 0)%Z eqn:Hz.
    + apply Z.eqb_eq in Hz. cbn [bind]. split; [|reflexivity].
      intros _. split; [reflexivity|lia].
    + apply Z.eqb_neq in Hz. split.
      * destruct (SFdiv _ _ _ _); cbn [bind]; discriminate.
      * intros [_ H]. lia.
Qed.

(** X24.  [put_back] puts the records at the front of the deque in the
    opposite order and leaves the file alone; pushing back two lists one
    after the other is pushing back their concatenation. *)
Theorem put_back_appendleft metadat more self :
  future (put_back metadat self) = rev metadat ++ future self
  /\ fpoint (put_back metadat self) = fpoint self
  /\ put_back more (put_back metadat self) = put_back (metadat ++ more) self.
Proof.
  split; [apply put_back_future|]. split; [reflexivity|].
  unfold put_back. cbn [future fpoint with_stream].
  now rewrite fold_left_app.
Qed.

(** X25.  Once [get_next_data] has returned [None] it returns [None] on
    every later call, with or without [just_one], and the study does not
    change any more. *)
Theorem get_next_data_None_again just_one self self' :
  get_next_data just_one self = (None, self') ->
  forall just_one', get_next_data just_one' self' = (None, self').
Proof.
  unfold get_next_data.
  destruct (future self) as [|v fut]; [|discriminate].
  destruct (read_rows just_one [] [] (fpoint self)) as (vars & fut' & rows') eqn:Hread.
  intros H. apply pair_equal_spec in H. destruct H as [-> <-].
  destruct (@read_rows_None _ _ _ _ _ _ Hread) as [-> ->].
  reflexivity.
Qed.

Lemma get_next_data_None_again_witness :
  get_next_data false (study 10 30 [] one_line) = (None, study 10 30 [] [])
  /\ forall just_one',
      get_next_data just_one' (study 10 30 [] []) = (None, study 10 30 [] []).
Proof.
  split; [reflexivity|].
  apply (@get_next_data_None_again false (study 10 30 [] one_line)
                                   (study 10 30 [] [])).
  reflexivity.
Defined.

(** ** Conservation over a sequence of calls *)

Section Accounting.

Implicit Types (self : Study) (dat : MetaDat) (rows : list Row).

(** A read that returns a batch stops between two reads. *)
Lemma read_rows_ends_Some vars fut rows batch fut' rows' :
  read_rows false vars fut rows = (Some batch, (fut', rows')) ->
  ends_between_reads (hd_error vars) rows = ends_cleanly rows'.
Proof.
  unfold ends_cleanly.
  revert vars; induction rows as [|l rows IH]; intros vars;
    cbn [read_rows ends_between_reads]; [discriminate|].
  destruct (dict_get chrord (row_chr l)) as [c|]; [|apply IH].
  destruct vars as [|v0 vars]; cbn [hd_error app].
  - intros H. exact (IH _ H).
  - destruct (same_site v0 (MetaDat_of_row c l)).
    + intros H. exact (IH _ H).
    + now intros [= <- <- <-].
Qed.

(** A read that meets the end of the file between two reads had nothing
    in hand and found no record. *)
Lemma read_rows_ends_None vars fut rows fut' rows' :
  read_rows false vars fut rows = (None, (fut', rows')) ->
  ends_between_reads (hd_error vars) rows = true ->
  vars = [] /\ records rows = [].
Proof.
  revert vars; induction rows as [|l rows IH]; intros vars;
    cbn [read_rows ends_between_reads records].
  - intros _. destruct vars; [now split|discriminate].
  - destruct (dict_get chrord (row_chr l)) as [c|]; [|apply IH].
    destruct vars as [|v0 vars]; cbn [hd_error app].
    + intros H Hend. now destruct (IH _ H Hend).
    + destruct (same_site v0 (MetaDat_of_row c l)); [|discriminate].
      intros H Hend. now destruct (IH _ H Hend).
Qed.

Lemma get_next_data_ends_Some self batch self' :
  get_next_data false self = (Some batch, self') ->
  ends_cleanly (fpoint self') = ends_cleanly (fpoint self).
Proof.
  unfold get_next_data.
  destruct (future self) as [|v fut].
  - destruct (read_rows false [] [] (fpoint self)) as (vars & fut' & rows') eqn:Hread.
    intros H. apply pair_equal_spec in H. destruct H as [-> <-].
    cbn [fpoint with_stream]. symmetry.
    exact (@read_rows_ends_Some _ _ _ _ _ _ Hread).
  - intros H. apply pair_equal_spec in H. destruct H as [_ <-]. reflexivity.
Qed.

Lemma get_next_data_ends_None self self' :
  get_next_data false self = (None, self') ->
  ends_cleanly (fpoint self) = true ->
  pending self = [] /\ pending self' = [].
Proof.
  unfold get_next_data, pending.
  destruct (future self) as [|v fut]; [|discriminate].
  destruct (read_rows false [] [] (fpoint self)) as (vars & fut' & rows') eqn:Hread.
  intros H Hend. apply pair_equal_spec in H. destruct H as [-> <-].
  destruct (@read_rows_None _ _ _ _ _ _ Hread) as [-> ->].
  destruct (@read_rows_ends_None _ _ _ _ _ Hread Hend) as [_ ->].
  now split.
Qed.

(** The [while] on a file that ends between two reads. *)
Lemma skip_before_ends fuel dat batch self otherdats self' :
  skip_before fuel dat (Some batch) self = Ok (otherdats, self') ->
  one_site batch = true ->
  ahead_ok batch (future self) ->
  ends_cleanly (fpoint self) = true ->
  ends_cleanly (fpoint self') = true
  /\ exists dropped,
      Forall (fun v => before v dat = true) dropped
      /\ match otherdats with
         | None =>
             future self' = []
             /\ Permutation (batch ++ pending self) (dropped ++ pending self')
         | Some batch' =>
             one_site batch' = true
             /\ ahead_ok batch' (future self')
             /\ Permutation (batch ++ pending self)
                            (dropped ++ batch' ++ pending self')
         end.
Proof.
  revert batch self; induction fuel as [|fuel IH]; intros batch self;
    cbn [skip_before]; destruct batch as [|o rest]; try discriminate;
    destruct (before o dat) eqn:Hbefore; try discriminate;
    try (intros [= <- <-] Hsite Hahead Hend; split; [assumption|];
         exists []; split; [constructor|]; split; [assumption|];
         split; [assumption|reflexivity]).
  assert (Hall : one_site (o :: rest) = true ->
                 Forall (fun v => before v dat = true) (o :: rest)).
  { intros Hsite. apply Forall_forall. intros v Hv.
    rewrite (@before_same_site o v dat); [assumption|].
    now apply (@one_site_In _ _ _ Hsite). }
  destruct (get_next_data false self) as [[next|] self1] eqn:Hnext.
  - intros H Hsite Hahead Hend.
    destruct (@get_next_data_keeps _ _ _ _ (@buffer_ok_ahead _ _ Hahead) Hnext)
      as [Hsite1 Hahead1].
    rewrite <- (@get_next_data_ends_Some _ _ _ Hnext) in Hend.
    destruct (IH _ _ H Hsite1 Hahead1 Hend) as (Hend' & dropped & Hdropped & Hacc).
    destruct (@get_next_data_Some _ _ _ _ Hnext) as (Hperm & _ & _).
    split; [assumption|].
    exists ((o :: rest) ++ dropped). split; [apply Forall_app; auto|].
    destruct otherdats as [batch'|].
    + destruct Hacc as (Hs & Ha & Hp). split; [assumption|]. split; [assumption|].
      rewrite <- app_assoc. apply Permutation_app_head. now rewrite Hperm.
    + destruct Hacc as (Hf & Hp). split; [assumption|].
      rewrite <- app_assoc. apply Permutation_app_head. now rewrite Hperm.
  - intros H Hsite Hahead Hend.
    assert (E : otherdats = None /\ self' = self1)
      by (destruct fuel; cbn in H; injection H as <- <-; now split).
    destruct E as [-> ->].
    destruct (@get_next_data_ends_None _ _ Hnext Hend) as [Hp Hp1].
    split.
    + rewrite (@get_next_data_None _ _ _ Hnext). reflexivity.
    + exists (o :: rest). split; [auto|].
      split; [exact (@get_next_data_None_future _ _ _ Hnext)|].
      now rewrite Hp, Hp1.
Qed.

(** One call of [get_match] on a file that ends between two reads. *)
Lemma get_match_ends dat self found self' :
  buffer_ok (future self) ->
  get_match dat self = Ok (found, self') ->
  ends_cleanly (fpoint self) = true ->
  ends_cleanly (fpoint self') = true
  /\ exists dropped taken,
      Forall (fun v => before v dat = true) dropped
      /\ taken_by dat found taken
      /\ Permutation (pending self) (dropped ++ taken ++ pending self').
Proof.
  intros Hok. unfold get_match.
  destruct (get_next_data false self) as [[batch|] self1] eqn:Hfirst.
  2:{ intros [= <- <-] Hend.
      destruct (@get_next_data_ends_None _ _ Hfirst Hend) as [Hp Hp1].
      split; [now rewrite (@get_next_data_None _ _ _ Hfirst)|].
      exists [], []. split; [constructor|]. split; [reflexivity|].
      now rewrite Hp, Hp1. }
  destruct (@get_next_data_keeps _ _ _ _ Hok Hfirst) as [Hsite1 Hahead1].
  destruct (@get_next_data_Some _ _ _ _ Hfirst) as (Hperm1 & Hne & _).
  pose proof (@get_next_data_ends_Some _ _ _ Hfirst) as Hends.
  destruct batch as [|o rest]; [congruence|].
  destruct (skip_before _ dat (Some (o :: rest)) self1)
    as [[[[|o2 rest2]|] self2]| |] eqn:Hskip; cbn [bind]; try discriminate.
  - intros H Hend. rewrite <- Hends in Hend.
    destruct (@skip_before_ends _ _ _ _ _ _ Hskip Hsite1 Hahead1 Hend)
      as (Hend2 & dropped & Hdropped & Hsite2 & Hahead2 & Hperm2).
    destruct (beyond o2 dat).
    + injection H as <- <-. split; [assumption|].
      exists dropped, []. split; [assumption|]. split; [reflexivity|].
      rewrite Hperm1, Hperm2. cbn [app].
      apply Permutation_app_head. symmetry. apply pending_put_back.
    + destruct (scan dat [] (o2 :: rest2)) as [[found' remaining]| |] eqn:Hscan;
        cbn [bind] in H; try discriminate.
      injection H as <- <-. split; [assumption|].
      destruct (@scan_accounts _ _ _ _ _ Hscan) as (taken & Htaken & Hperm3).
      exists dropped, taken. split; [assumption|]. split; [assumption|].
      rewrite Hperm1, Hperm2. apply Permutation_app_head.
      cbn [app] in Hperm3. rewrite Hperm3, <- app_assoc.
      apply Permutation_app_head. symmetry. apply pending_put_back.
  - intros [= <- <-] Hend. rewrite <- Hends in Hend.
    destruct (@skip_before_ends _ _ _ _ _ _ Hskip Hsite1 Hahead1 Hend)
      as (Hend2 & dropped & Hdropped & Hfut & Hperm2).
    split; [assumption|].
    exists dropped, []. split; [assumption|]. split; [reflexivity|].
    now rewrite Hperm1, Hperm2.
Qed.

End Accounting.

(** C1, as amended.  Take a study whose deque is empty, or has the shape
    [get_match] leaves it in, and any sequence of [get_match] calls on it,
    in particular one with non-decreasing targets.  If the file ends
    between two reads of [get_next_data], or if the calls leave lines
    unread, then every record the study held at the start, in the deque or
    unread, is accounted for exactly once: it was returned as the match of
    one call, or it is still held after the last call, or it was dropped by
    the [while] of one call and sorts strictly before the target of that
    very call.  The account holds call by call, between the state before
    and the state after each call, and so over the whole sequence. *)
Theorem get_matches_conservation targets self founds self' :
  buffer_ok (future self) ->
  get_matches targets self = Ok (founds, self') ->
  ends_cleanly (fpoint self) = true \/ fpoint self' <> [] ->
  each_call_accounts targets self founds self'
  /\ exists droppeds taken,
      Forall2 (fun dat dropped => Forall (fun v => before v dat = true) dropped)
              targets droppeds
      /\ taken_by_all targets founds taken
      /\ Permutation (pending self)
                     (List.concat droppeds ++ taken ++ pending self').
Proof.
  revert self founds; induction targets as [|dat targets IH];
    intros self founds Hok; cbn [get_matches].
  - intros [= <- <-] _. split; [constructor|].
    exists [], []. repeat split; constructor || reflexivity.
  - destruct (get_match dat self) as [[found self1]| |] eqn:Hcall;
      cbn [bind]; try discriminate.
    destruct (get_matches targets self1) as [[founds' self2]| |] eqn:Hrest;
      cbn [bind]; try discriminate.
    intros [= <- <-] Hends.
    destruct (@get_match_keeps _ _ _ _ Hok Hcall) as [Hok1 Hleft].
    assert (Hone : (ends_cleanly (fpoint self1) = true \/ fpoint self2 <> [])
                   /\ exists dropped1 taken1,
                       Forall (fun v => before v dat = true) dropped1
                       /\ taken_by dat found taken1
                       /\ Permutation (pending self)
                                      (dropped1 ++ taken1 ++ pending self1)).
    { destruct Hends as [Hend|Hrows].
      - destruct (@get_match_ends _ _ _ _ Hok Hcall Hend) as [Hend1 Hacc].
        split; [now left|assumption].
      - split; [now right|]. apply Hleft.
        intros Hnil. apply Hrows, (get_matches_exhausted _ _ Hrest Hnil). }
    destruct Hone as (Hends1 & dropped1 & taken1 & Hdropped1 & Htaken1 & Hperm1).
    destruct (IH _ _ Hok1 Hrest Hends1)
      as (Hcalls & droppeds2 & taken2 & Hdropped2 & Htaken2 & Hperm2).
    split; [now apply (@accounts_cons _ _ _ _ _ _ _ _ _ Hcall Hdropped1 Htaken1 Hperm1)|].
    exists (dropped1 :: droppeds2), (taken1 ++ taken2).
    split; [now constructor|]. split; [now constructor|].
    cbn [List.concat].
    rewrite Hperm1, Hperm2, <- !app_assoc.
    apply Permutation_app_head.
    rewrite !app_assoc. do 2 apply Permutation_app_tail.
    apply Permutation_app_comm.
Qed.

Lemma get_matches_conservation_witness :
  buffer_ok (future (study 10 30 [] two_sites))
  /\ get_matches [rec_AT; target_200] (study 10 30 [] two_sites)
     = Ok ([None; Some target_200], study 10 30 [] [])
  /\ (ends_cleanly (fpoint (study 10 30 [] two_sites)) = true
      \/ fpoint (study 10 30 [] []) <> [])
  /\ each_call_accounts [rec_AT; target_200] (study 10 30 [] two_sites)
                        [None; Some target_200] (study 10 30 [] [])
  /\ exists droppeds taken,
      Forall2 (fun dat dropped =>
                 Forall (fun v => before v dat = true) dropped)
              [rec_AT; target_200] droppeds
      /\ taken_by_all [rec_AT; target_200] [None; Some target_200] taken
      /\ Permutation (pending (study 10 30 [] two_sites))
                     (List.concat droppeds ++ taken
                      ++ pending (study 10 30 [] [])).
Proof.
  split; [apply buffer_ok_nil|]. split; [reflexivity|].
  split; [left; reflexivity|].
  apply (@get_matches_conservation
           [rec_AT; target_200] (study 10 30 [] two_sites)
           [None; Some target_200] (study 10 30 [] []));
    [apply buffer_ok_nil|reflexivity|left; reflexivity].
Defined.
